(** * CalcuVIN: the calculator reducer and the VIN text helpers

    Shallow embedding of [src/app/(tabs)/index.tsx] (the calculator state
    machine: [toNumber], [formatNumber], [applyOp], [reducer]) and of the VIN
    helpers of [src/app/(tabs)/explore.tsx] ([normalizeVin], [validateVin],
    [extractVinFromText]).

    JavaScript numbers are IEEE-754 binary64 values; they are modelled with the
    Standard Library's [SpecFloat] ([prec = 53], [emax = 1024]).  The JS
    builtins the code calls ([Number(string)], [Number.isFinite],
    [String(number)], [Number.prototype.toFixed]) are written out after the
    ECMAScript specification, with exact rational arithmetic where the
    specification asks for "the Number value for" a mathematical value.

    Strings are Stdlib [string]s: one [ascii] per UTF-16 code unit, so the
    model covers the code units U+0000..U+00FF. *)

From Stdlib Require Import ZArith QArith Qround Qabs List Bool Lia.
From Stdlib Require Import Strings.String Strings.Ascii Numbers.DecimalString.
From Stdlib Require Import Floats.SpecFloat.
Import ListNotations.

Open Scope string_scope.

(* ------------------------------------------------------------------ *)
(** ** Characters and small string helpers *)

Module Str.

Definition code (c : ascii) : nat := nat_of_ascii c.

(** [0-9] *)
Definition is_digit (c : ascii) : bool := (48 <=? code c)%nat && (code c <=? 57)%nat.

(** [A-Z0-9]: the class of the regular expressions [/[^A-Z0-9]/g]. *)
Definition is_AZ09 (c : ascii) : bool :=
  is_digit c || ((65 <=? code c)%nat && (code c <=? 90)%nat).

(** ECMAScript WhiteSpace and LineTerminator code units below U+0100:
    TAB, LF, VT, FF, CR, SPACE, NO-BREAK SPACE. *)
Definition is_js_ws (c : ascii) : bool :=
  let n := code c in
  ((9 <=? n)%nat && (n <=? 13)%nat) || (n =? 32)%nat || (n =? 160)%nat.

(** [s.includes(c)] for a one-character needle. *)
Fixpoint includes (c : ascii) (s : string) : bool :=
  match s with
  | EmptyString => false
  | String c' s' => Ascii.eqb c c' || includes c s'
  end.

Fixpoint str_map (f : ascii -> ascii) (s : string) : string :=
  match s with
  | EmptyString => EmptyString
  | String c s' => String (f c) (str_map f s')
  end.

Fixpoint str_filter (p : ascii -> bool) (s : string) : string :=
  match s with
  | EmptyString => EmptyString
  | String c s' => if p c then String c (str_filter p s') else str_filter p s'
  end.

Fixpoint repeat_char (c : ascii) (n : nat) : string :=
  match n with
  | O => EmptyString
  | S n' => String c (repeat_char c n')
  end.

Fixpoint drop_while (p : ascii -> bool) (s : string) : string :=
  match s with
  | String c s' => if p c then drop_while p s' else s
  | EmptyString => EmptyString
  end.

Fixpoint str_rev (s : string) : string :=
  match s with
  | EmptyString => EmptyString
  | String c s' => str_rev s' ++ String c EmptyString
  end.

(** [String.prototype.trim]. *)
Definition trim (s : string) : string :=
  str_rev (drop_while is_js_ws (str_rev (drop_while is_js_ws s))).

Definition digit_char (d : Z) : ascii := ascii_of_nat (48 + Z.to_nat d).

(** Decimal digits of a non-negative integer ("0" for 0). *)
Definition Z_to_dec (z : Z) : string :=
  NilZero.string_of_uint (N.to_uint (Z.to_N z)).

Fixpoint str_drop (n : nat) (s : string) : string :=
  match n, s with
  | O, _ => s
  | S n', String _ s' => str_drop n' s'
  | S _, EmptyString => EmptyString
  end.

Fixpoint all_str (p : ascii -> bool) (s : string) : bool :=
  match s with
  | EmptyString => true
  | String c s' => p c && all_str p s'
  end.

End Str.

Import Str.

(* ------------------------------------------------------------------ *)
(** ** JavaScript numbers (binary64) *)

Module JsNum.

Local Open Scope Z_scope.

Definition prec : Z := 53.
Definition emax : Z := 1024.

Definition num : Type := spec_float.

Definition NaN : num := S754_nan.
Definition pos_zero : num := S754_zero false.

Definition add (a b : num) : num := SFadd prec emax a b.
Definition sub (a b : num) : num := SFsub prec emax a b.
Definition mul (a b : num) : num := SFmul prec emax a b.
Definition div (a b : num) : num := SFdiv prec emax a b.
Definition opp (a : num) : num := SFopp a.

(** [Number.isFinite] *)
Definition isFinite (x : num) : bool :=
  match x with
  | S754_zero _ | S754_finite _ _ _ => true
  | _ => false
  end.

(** [x === 0] (true for +0 and -0, false for NaN) *)
Definition is_zero (x : num) : bool :=
  match x with S754_zero _ => true | _ => false end.

(** [Object.is(x, -0)] *)
Definition is_neg_zero (x : num) : bool :=
  match x with S754_zero true => true | _ => false end.

Definition num_eqb (x y : num) : bool :=
  match x, y with
  | S754_zero s, S754_zero s' => Bool.eqb s s'
  | S754_infinity s, S754_infinity s' => Bool.eqb s s'
  | S754_nan, S754_nan => true
  | S754_finite s m e, S754_finite s' m' e' =>
      Bool.eqb s s' && Pos.eqb m m' && Z.eqb e e'
  | _, _ => false
  end.

(** "The Number value for" [(-1)^neg * M * 10^E], [M >= 0]: round to
    nearest, ties to even, overflowing to an infinity. *)
Definition round_decimal (neg : bool) (M E : Z) : num :=
  if M =? 0 then S754_zero neg
  else if 0 <=? E then binary_round prec emax neg (Z.to_pos (M * 10 ^ E)) 0
  else
    let '(mz, ez, lz) := SFdiv_core_binary prec emax M 0 (10 ^ (- E)) 0 in
    binary_round_aux prec emax neg mz ez lz.

(** Exact value of a finite float as a rational. *)
Definition to_Q (m : positive) (e : Z) : Q :=
  if 0 <=? e then inject_Z (Zpos m * 2 ^ e) else Zpos m # Z.to_pos (2 ^ (- e)).

Definition pow10Q (p : Z) : Q := Qpower (inject_Z 10) p.

End JsNum.

Import JsNum.

(* ------------------------------------------------------------------ *)
(** ** JS builtins: [Number(string)], [String(number)], [toFixed] *)

Module JsConv.

Local Open Scope Z_scope.

(** Maximal prefix of decimal digits, and the rest. *)
Fixpoint take_digits (s : string) : string * string :=
  match s with
  | String c s' =>
      if is_digit c then let '(d, r) := take_digits s' in (String c d, r)
      else (EmptyString, s)
  | EmptyString => (EmptyString, EmptyString)
  end.

Definition digit_value (c : ascii) : option Z :=
  let n := Z.of_nat (code c) in
  if (48 <=? n) && (n <=? 57) then Some (n - 48)
  else if (65 <=? n) && (n <=? 70) then Some (n - 55)
  else if (97 <=? n) && (n <=? 102) then Some (n - 87)
  else None.

(** Value of a non-empty digit string in radix [r]. *)
Fixpoint radix_value (r acc : Z) (s : string) : option Z :=
  match s with
  | EmptyString => Some acc
  | String c s' =>
      match digit_value c with
      | Some d => if d <? r then radix_value r (acc * r + d) s' else None
      | None => None
      end
  end.

Inductive literal := LitInfinity | LitDecimal (M E : Z).

(** ExponentPart_opt, which must end the string. *)
Definition parse_exponent (r : string) : option Z :=
  match r with
  | EmptyString => Some 0
  | String c r' =>
      if Ascii.eqb c "e"%char || Ascii.eqb c "E"%char then
        let '(sg, r2) :=
          match r' with
          | String c2 r2 =>
              if Ascii.eqb c2 "+"%char then (1, r2)
              else if Ascii.eqb c2 "-"%char then (-1, r2) else (1, r')
          | EmptyString => (1, r')
          end in
        let '(d, r3) := take_digits r2 in
        match d, r3 with
        | String _ _, EmptyString =>
            option_map (fun v => sg * v) (radix_value 10 0 d)
        | _, _ => None
        end
      else None
  end.

(** StrUnsignedDecimalLiteral. *)
Definition parse_unsigned (s : string) : option literal :=
  if String.eqb s "Infinity" then Some LitInfinity else
  let '(ip, r1) := take_digits s in
  match r1 with
  | String c r2 =>
      if Ascii.eqb c "."%char then
        let '(fp, r3) := take_digits r2 in
        match ip, fp with
        | EmptyString, EmptyString => None
        | _, _ =>
            match radix_value 10 0 (ip ++ fp), parse_exponent r3 with
            | Some M, Some x => Some (LitDecimal M (x - Z.of_nat (String.length fp)))
            | _, _ => None
            end
        end
      else
        match ip with
        | EmptyString => None
        | _ => match radix_value 10 0 ip, parse_exponent r1 with
               | Some M, Some x => Some (LitDecimal M x)
               | _, _ => None
               end
        end
  | EmptyString =>
      match ip with
      | EmptyString => None
      | _ => option_map (fun M => LitDecimal M 0) (radix_value 10 0 ip)
      end
  end.

(** NonDecimalIntegerLiteral prefixes [0x], [0o], [0b] (either case). *)
Definition nondecimal_prefix (t : string) : option (Z * string) :=
  match t with
  | String z (String c rest) =>
      if Ascii.eqb z "0"%char then
        if Ascii.eqb c "x"%char || Ascii.eqb c "X"%char then Some (16, rest)
        else if Ascii.eqb c "o"%char || Ascii.eqb c "O"%char then Some (8, rest)
        else if Ascii.eqb c "b"%char || Ascii.eqb c "B"%char then Some (2, rest)
        else None
      else None
  | _ => None
  end.

(** [Number(s)] for a string [s] (ECMAScript StringToNumber). *)
Definition Number (s : string) : num :=
  let t := trim s in
  match t with
  | EmptyString => pos_zero
  | _ =>
    match nondecimal_prefix t with
    | Some (r, rest) =>
        match rest with
        | EmptyString => NaN
        | _ => match radix_value r 0 rest with
               | Some n => round_decimal false n 0
               | None => NaN
               end
        end
    | None =>
        let '(neg, u) :=
          match t with
          | String c u =>
              if Ascii.eqb c "-"%char then (true, u)
              else if Ascii.eqb c "+"%char then (false, u) else (false, t)
          | EmptyString => (false, t)
          end in
        match parse_unsigned u with
        | Some LitInfinity => S754_infinity neg
        | Some (LitDecimal M E) => round_decimal neg M E
        | None => NaN
        end
    end
  end.

(** The [n] with [10^(n-1) <= v < 10^n], for [v > 0]. *)
Definition decimal_exponent (v : Q) : Z :=
  let dn := Z.of_nat (String.length (Z_to_dec (Qnum v))) in
  let dd := Z.of_nat (String.length (Z_to_dec (Zpos (Qden v)))) in
  let n1 := dn - dd in
  if Qle_bool (pow10Q n1) v then n1 + 1 else n1.

(** Among the [k]-digit decimals next to [v], the one closest to [v]
    that reads back as [x] (ties to the even [s]); as [(s, n)] for the
    value [s * 10^(n-k)]. *)
Definition try_digits (x : num) (v : Q) (n0 k : Z) : option (Z * Z) :=
  let sl := Qfloor (v * pow10Q (k - n0)) in
  let c1 := (sl, n0) in
  let c2 := if sl + 1 =? 10 ^ k then (10 ^ (k - 1), n0 + 1) else (sl + 1, n0) in
  let ok (c : Z * Z) := num_eqb (round_decimal false (fst c) (snd c - k)) x in
  let dist (c : Z * Z) := Qabs (inject_Z (fst c) * pow10Q (snd c - k) - v) in
  match ok c1, ok c2 with
  | true, true =>
      match Qcompare (dist c1) (dist c2) with
      | Lt => Some c1
      | Gt => Some c2
      | Eq => if Z.even (fst c1) then Some c1 else Some c2
      end
  | true, false => Some c1
  | false, true => Some c2
  | false, false => None
  end.

(** Smallest [k] for which [try_digits] succeeds ([k <= 17] always does). *)
Fixpoint shortest (x : num) (v : Q) (n0 k : Z) (fuel : nat) : Z * Z * Z :=
  match fuel with
  | O => (Qfloor (v * pow10Q (k - n0)), k, n0)
  | S f =>
      match try_digits x v n0 k with
      | Some (s, n) => (s, k, n)
      | None => shortest x v n0 (k + 1) f
      end
  end.

(** Layout of Number::toString for the digits [s] ([k] of them) and the
    decimal exponent [n]. *)
Definition layout (s k n : Z) : string :=
  let ds := Z_to_dec s in
  if (k <=? n) && (n <=? 21) then ds ++ repeat_char "0" (Z.to_nat (n - k))
  else if (0 <? n) && (n <=? 21) then
    substring 0 (Z.to_nat n) ds ++ "." ++ substring (Z.to_nat n) (Z.to_nat (k - n)) ds
  else if (-6 <? n) && (n <=? 0) then
    "0." ++ repeat_char "0" (Z.to_nat (- n)) ++ ds
  else
    let c := if 0 <=? n - 1 then "+" else "-" in
    let es := Z_to_dec (Z.abs (n - 1)) in
    if k =? 1 then ds ++ "e" ++ c ++ es
    else substring 0 1 ds ++ "." ++ substring 1 (Z.to_nat (k - 1)) ds ++ "e" ++ c ++ es.

(** [String(x)] for a Number [x] (Number::toString, radix 10). *)
Definition Number_toString (x : num) : string :=
  match x with
  | S754_nan => "NaN"
  | S754_zero _ => "0"
  | S754_infinity false => "Infinity"
  | S754_infinity true => "-Infinity"
  | S754_finite sg m e =>
      let v := to_Q m e in
      let '(s, k, n) := shortest (S754_finite false m e) v (decimal_exponent v) 1 17 in
      let body := layout s k n in
      if sg then "-" ++ body else body
  end.

(** [x.toFixed(f)]. *)
Definition toFixed (f : nat) (x : num) : string :=
  if negb (isFinite x) then Number_toString x else
  let '(sgn, y) := match x with
                   | S754_finite true m e => ("-", S754_finite false m e)
                   | _ => ("", x)
                   end in
  let v := match y with S754_finite _ m e => to_Q m e | _ => 0%Q end in
  if Qle_bool (pow10Q 21) v then sgn ++ Number_toString y else
  let n := Qfloor (v * pow10Q (Z.of_nat f) + (1 # 2)) in
  let m := Z_to_dec n in
  let k := String.length m in
  let '(m, k) := if (k <=? f)%nat
                 then (repeat_char "0" (f + 1 - k) ++ m, (f + 1)%nat)
                 else (m, k) in
  let a := substring 0 (k - f) m in
  let b := substring (k - f) f m in
  sgn ++ a ++ "." ++ b.

(** The whole string matches [\.?0+]. *)
Definition all_zeros (s : string) : bool :=
  match s with
  | EmptyString => false
  | _ => String.eqb (str_filter (fun c => negb (Ascii.eqb c "0"%char)) s) ""
  end.

Definition dot_zeros (s : string) : bool :=
  match s with
  | String c r => if Ascii.eqb c "."%char then all_zeros r else all_zeros s
  | EmptyString => false
  end.

(** [s.replace(/\.?0+$/, "")]: cut at the leftmost position from which
    the rest of the string matches [\.?0+]. *)
Fixpoint strip_trailing_zeros (s : string) : string :=
  if dot_zeros s then EmptyString else
  match s with
  | EmptyString => EmptyString
  | String c s' => String c (strip_trailing_zeros s')
  end.

End JsConv.

Import JsConv.

(* ------------------------------------------------------------------ *)
(** ** The calculator ([src/app/(tabs)/index.tsx]) *)

Module Calc.

(** [type Op = "+" | "−" | "×" | "÷"] *)
Inductive Op := OpAdd | OpSub | OpMul | OpDiv.

(** [type State] *)
Record State := mkState {
  display : string;
  acc : option num;
  op : option Op;
  entering : bool;
  justEvaluated : bool
}.

(** [type Action] *)
Inductive Action :=
| DIGIT (digit : string)
| DOT
| CLEAR
| TOGGLE_SIGN
| PERCENT
| OP (o : Op)
| EQUALS.

(** [x !== null] *)
Definition is_some {A} (x : option A) : bool :=
  match x with Some _ => true | None => false end.

Definition initialState : State :=
  {| display := "0"; acc := None; op := None; entering := true;
     justEvaluated := false |}.

Definition toNumber (d : string) : num :=
  let n := Number d in
  if isFinite n then n else pos_zero.

Definition formatNumber (n : num) : string :=
  if negb (isFinite n) then "Error" else
  let n := if is_neg_zero n then pos_zero else n in
  let s := Number_toString n in
  if includes "e"%char s then s
  else if includes "."%char s then strip_trailing_zeros (toFixed 10 n)
  else s.

Definition applyOp (a b : num) (o : Op) : num :=
  match o with
  | OpAdd => add a b
  | OpSub => sub a b
  | OpMul => mul a b
  | OpDiv => if is_zero b then NaN else div a b
  end.

Definition hundred : num := Number "100".

Definition reducer (state : State) (action : Action) : State :=
  let cur := toNumber (display state) in
  match action with
  | CLEAR => initialState
  | DIGIT digit =>
      let startFresh :=
        justEvaluated state && negb (is_some (op state)) && negb (is_some (acc state)) in
      if negb (entering state) || startFresh then
        {| display := digit; acc := acc state; op := op state;
           entering := true; justEvaluated := false |}
      else if String.eqb (display state) "0" then
        {| display := digit; acc := acc state; op := op state;
           entering := entering state; justEvaluated := false |}
      else
        {| display := display state ++ digit; acc := acc state; op := op state;
           entering := entering state; justEvaluated := false |}
  | DOT =>
      let startFresh :=
        justEvaluated state && negb (is_some (op state)) && negb (is_some (acc state)) in
      if negb (entering state) || startFresh then
        {| display := "0."; acc := acc state; op := op state;
           entering := true; justEvaluated := false |}
      else if includes "."%char (display state) then state
      else
        {| display := display state ++ "."; acc := acc state; op := op state;
           entering := entering state; justEvaluated := false |}
  | TOGGLE_SIGN =>
      if String.eqb (display state) "0" then state else
      let n := opp cur in
      {| display := formatNumber n; acc := acc state; op := op state;
         entering := entering state; justEvaluated := false |}
  | PERCENT =>
      let n := div cur hundred in
      {| display := formatNumber n; acc := acc state; op := op state;
         entering := entering state; justEvaluated := false |}
  | OP o =>
      match op state, acc state, entering state with
      | Some pending, Some a, true =>
          let nextAcc := applyOp a cur pending in
          {| display := formatNumber nextAcc; acc := Some nextAcc; op := Some o;
             entering := false; justEvaluated := false |}
      | _, _, _ =>
          let nextAcc := match acc state with Some a => a | None => cur end in
          {| display := display state; acc := Some nextAcc; op := Some o;
             entering := false; justEvaluated := false |}
      end
  | EQUALS =>
      match op state, acc state with
      | Some pending, Some a =>
          let result := applyOp a cur pending in
          {| display := formatNumber result; acc := None; op := None;
             entering := false; justEvaluated := true |}
      | _, _ =>
          {| display := display state; acc := acc state; op := op state;
             entering := false; justEvaluated := true |}
      end
  end.

(** [type Key] and [onKeyPress]: the actions the keypad dispatches. *)
Inductive Key :=
| K_C | K_PM | K_PCT | K_DIV | K_MUL | K_SUB | K_ADD | K_DOT | K_EQ
| K_D0 | K_D1 | K_D2 | K_D3 | K_D4 | K_D5 | K_D6 | K_D7 | K_D8 | K_D9.

Definition onKeyPress (k : Key) : Action :=
  match k with
  | K_C => CLEAR
  | K_PM => TOGGLE_SIGN
  | K_PCT => PERCENT
  | K_DOT => DOT
  | K_EQ => EQUALS
  | K_ADD => OP OpAdd
  | K_SUB => OP OpSub
  | K_MUL => OP OpMul
  | K_DIV => OP OpDiv
  | K_D0 => DIGIT "0" | K_D1 => DIGIT "1" | K_D2 => DIGIT "2"
  | K_D3 => DIGIT "3" | K_D4 => DIGIT "4" | K_D5 => DIGIT "5"
  | K_D6 => DIGIT "6" | K_D7 => DIGIT "7" | K_D8 => DIGIT "8"
  | K_D9 => DIGIT "9"
  end.

(** [useReducer(reducer, initialState)] fed a sequence of key presses. *)
Definition press_all (s : State) (ks : list Key) : State :=
  fold_left (fun st k => reducer st (onKeyPress k)) ks s.

Definition run (ks : list Key) : State := press_all initialState ks.

(** States the screen can reach by key presses. *)
Inductive reachable : State -> Prop :=
| reach_init : reachable initialState
| reach_key s k : reachable s -> reachable (reducer s (onKeyPress k)).

(** The operator keys and the digit keys of the keypad. *)
Definition op_key (o : Op) : Key :=
  match o with OpAdd => K_ADD | OpSub => K_SUB | OpMul => K_MUL | OpDiv => K_DIV end.

Definition digit_keys : list Key :=
  [K_D0; K_D1; K_D2; K_D3; K_D4; K_D5; K_D6; K_D7; K_D8; K_D9].

Definition key_digit (k : Key) : string :=
  match onKeyPress k with DIGIT d => d | _ => EmptyString end.

(** Syntax of the display as the spec describes it: an optional ["-"],
    decimal digits with at most one ["."] (possibly trailing), an optional
    exponent [e[+-]digits]; or the literal ["Error"]. *)
Definition nonempty_str (s : string) : bool :=
  match s with EmptyString => false | _ => true end.

Definition exponent_ok (r : string) : bool :=
  match r with
  | EmptyString => true
  | String c r' =>
      (Ascii.eqb c "e"%char || Ascii.eqb c "E"%char) &&
      (let r2 := match r' with
                 | String c2 r2 =>
                     if Ascii.eqb c2 "+"%char || Ascii.eqb c2 "-"%char then r2 else r'
                 | EmptyString => r'
                 end in
       let '(d, r3) := take_digits r2 in
       nonempty_str d && negb (nonempty_str r3))
  end.

Definition numeric_literal (s : string) : bool :=
  let u := match s with
           | String c u => if Ascii.eqb c "-"%char then u else s
           | EmptyString => s
           end in
  let '(ip, r1) := take_digits u in
  match r1 with
  | String c r2 =>
      if Ascii.eqb c "."%char then
        let '(fp, r3) := take_digits r2 in
        (nonempty_str ip || nonempty_str fp) && exponent_ok r3
      else nonempty_str ip && exponent_ok r1
  | EmptyString => nonempty_str ip
  end.

Definition valid_display (s : string) : bool :=
  String.eqb s "Error" || numeric_literal s.

End Calc.

Import Calc.

(* ------------------------------------------------------------------ *)
(** ** VIN text helpers ([src/app/(tabs)/explore.tsx]) *)

Module Vin.

(** [/[IOQ]/.test(v)] *)
Definition has_IOQ (v : string) : bool :=
  includes "I"%char v || includes "O"%char v || includes "Q"%char v.

(** [s.split(/\s+/)]: the pieces between maximal runs of whitespace
    (a leading or trailing run gives an empty first or last piece). *)
Fixpoint split_ws (s : string) : list string :=
  match s with
  | EmptyString => [EmptyString]
  | String c s' =>
      if is_js_ws c then
        match s' with
        | String c' _ => if is_js_ws c' then split_ws s' else EmptyString :: split_ws s'
        | EmptyString => EmptyString :: split_ws s'
        end
      else
        match split_ws s' with
        | h :: t => String c h :: t
        | [] => [String c EmptyString]
        end
  end.

(** [.filter(Boolean)] on strings *)
Definition non_empty (s : string) : bool :=
  match s with EmptyString => false | _ => true end.

Definition validateVin (v : string) : option string :=
  if (String.length v =? 0)%nat then None
  else if negb (String.length v =? 17)%nat then Some "VIN must be exactly 17 characters."
  else if has_IOQ v then Some "VIN cannot contain I, O, or Q."
  else None.

(** The sliding-window loop [for (let i = 0; i + 17 <= joined.length; i++)];
    [fuel] bounds the iterations. *)
Fixpoint scan_windows (joined : string) (i fuel : nat) : option string :=
  match fuel with
  | O => None
  | S f =>
      if (i + 17 <=? String.length joined)%nat then
        let sub := substring i 17 joined in
        if negb (has_IOQ sub) then Some sub else scan_windows joined (S i) f
      else None
  end.

(** [toUpperCase] is the JS builtin (full Unicode case mapping), kept as a
    parameter of the two functions that call it. *)
(** [/[^A-Z0-9]/g] replaced by [" "] *)
Definition clean_char (c : ascii) : ascii := if is_AZ09 c then c else " "%char.

Section WithUpper.

Variable toUpperCase : string -> string.

Definition normalizeVin (input : string) : string :=
  str_filter is_AZ09 (toUpperCase (trim input)).

Definition extractVinFromText (text : string) : option string :=
  let cleaned := str_map clean_char (toUpperCase text) in
  let candidates := filter non_empty (split_ws cleaned) in
  match find (fun c => (String.length c =? 17)%nat && negb (has_IOQ c)) candidates with
  | Some c => Some c
  | None =>
      let joined := str_filter (fun c => negb (is_js_ws c)) cleaned in
      scan_windows joined 0 (S (String.length joined))
  end.

End WithUpper.

(** [toUpperCase] on ASCII text: a-z to A-Z, every other character kept. *)
Definition ascii_toUpperCase (s : string) : string :=
  str_map (fun c => if (97 <=? code c)%nat && (code c <=? 122)%nat
                    then ascii_of_nat (code c - 32) else c) s.

(** The extraction described in words: alphanumeric tokens of the
    upper-cased text, split at non-alphanumeric characters. *)
Fixpoint split_on (sep : ascii -> bool) (s : string) : list string :=
  match s with
  | EmptyString => [EmptyString]
  | String c s' =>
      if sep c then EmptyString :: split_on sep s'
      else match split_on sep s' with
           | h :: t => String c h :: t
           | [] => [String c EmptyString]
           end
  end.

Definition alnum_tokens (u : string) : list string :=
  filter non_empty (split_on (fun c => negb (is_AZ09 c)) u).

Definition vin_ok (t : string) : bool :=
  (String.length t =? 17)%nat && negb (has_IOQ t).

(** First 17-character substring without I, O, Q, left to right. *)
Fixpoint first_window (s : string) : option string :=
  match s with
  | EmptyString => None
  | String _ s' =>
      if (17 <=? String.length s)%nat then
        let w := substring 0 17 s in
        if negb (has_IOQ w) then Some w else first_window s'
      else None
  end.

Definition extract_spec (toUpperCase : string -> string) (text : string) : option string :=
  let toks := alnum_tokens (toUpperCase text) in
  match find vin_ok toks with
  | Some t => Some t
  | None => first_window (String.concat "" toks)
  end.

End Vin.

Import Vin.

(* ------------------------------------------------------------------ *)
(** ** Digit entry on the keypad *)

Module Entry.

(** The number a run of digit keys spells: its digits without leading
    zeros, or ["0"] when nothing but zeros is left. *)
Definition typed_number (t : string) : string :=
  match drop_while (fun c => Ascii.eqb c "0"%char) t with
  | EmptyString => "0"
  | r => r
  end.

End Entry.

Import Entry.

(* ------------------------------------------------------------------ *)
(** ** JS values and JSON ([JSON.parse], [JSON.stringify], [String]) *)

Module Json.

Local Open Scope Z_scope.

(** The values [JSON.parse] builds, also used for the values read off the
    decoder's response and the OCR result.  An object is the list of its
    members in source order; [undefined] is [None] in an [option json]. *)
#[local] Set Warnings "-register-all".

Inductive json :=
| JNull
| JBool (b : bool)
| JNum (n : num)
| JStr (s : string)
| JArr (l : list json)
| JObj (l : list (string * json)).

Definition dq : ascii := "034"%char.
Definition bs : ascii := "092"%char.

(** JSON whitespace: TAB, LF, CR, SPACE. *)
Definition is_json_ws (c : ascii) : bool :=
  let n := code c in (n =? 9)%nat || (n =? 10)%nat || (n =? 13)%nat || (n =? 32)%nat.

Definition skip_ws (s : string) : string := drop_while is_json_ws s.

Definition cons_char (x : ascii) (o : option (string * string)) : option (string * string) :=
  match o with
  | Some (t, r) => Some (String x t, r)
  | None => None
  end.

(** The single-character escapes: backslash followed by one of
    the quote, backslash, slash, b, f, n, r, t. *)
Definition unescape (e : ascii) : option ascii :=
  let n := code e in
  if (n =? 34)%nat then Some dq
  else if (n =? 92)%nat then Some bs
  else if (n =? 47)%nat then Some "/"%char
  else if (n =? 98)%nat then Some (ascii_of_nat 8)
  else if (n =? 102)%nat then Some (ascii_of_nat 12)
  else if (n =? 110)%nat then Some (ascii_of_nat 10)
  else if (n =? 114)%nat then Some (ascii_of_nat 13)
  else if (n =? 116)%nat then Some (ascii_of_nat 9)
  else None.

Definition hex4 (a b c d : ascii) : option Z :=
  match digit_value a, digit_value b, digit_value c, digit_value d with
  | Some x1, Some x2, Some x3, Some x4 => Some (((x1 * 16 + x2) * 16 + x3) * 16 + x4)
  | _, _, _, _ => None
  end.

(** The characters of a JSON string after its opening quote, up to and
    without the closing quote; and the text after it.  A [\uXXXX] escape
    above U+00FF has no code unit in this model and is refused. *)
Fixpoint parse_string_body (s : string) : option (string * string) :=
  match s with
  | EmptyString => None
  | String c r =>
      if Ascii.eqb c dq then Some (EmptyString, r)
      else if Ascii.eqb c bs then
        match r with
        | EmptyString => None
        | String e r1 =>
            if Ascii.eqb e "u"%char then
              match r1 with
              | String h1 (String h2 (String h3 (String h4 r2))) =>
                  match hex4 h1 h2 h3 h4 with
                  | Some n =>
                      if n <? 256 then cons_char (ascii_of_nat (Z.to_nat n)) (parse_string_body r2)
                      else None
                  | None => None
                  end
              | _ => None
              end
            else
              match unescape e with
              | Some x => cons_char x (parse_string_body r1)
              | None => None
              end
        end
      else if (code c <? 32)%nat then None
      else cons_char c (parse_string_body r)
  end.

(** A JSON number: [-? (0 | [1-9][0-9]* ) (. [0-9]+)? ([eE] [+-]? [0-9]+)?],
    rounded to the nearest Number. *)
Definition parse_number (s : string) : option (num * string) :=
  let '(neg, u) :=
    match s with
    | String c u => if Ascii.eqb c "-"%char then (true, u) else (false, s)
    | EmptyString => (false, s)
    end in
  let int_part :=
    match u with
    | String c u' =>
        if Ascii.eqb c "0"%char then Some ("0", u')
        else if is_digit c then Some (take_digits u) else None
    | EmptyString => None
    end in
  match int_part with
  | None => None
  | Some (ip, r1) =>
      let frac_part :=
        match r1 with
        | String c r2 =>
            if Ascii.eqb c "."%char then
              let '(fp, r3) := take_digits r2 in
              match fp with EmptyString => None | _ => Some (fp, r3) end
            else Some (EmptyString, r1)
        | EmptyString => Some (EmptyString, r1)
        end in
      match frac_part with
      | None => None
      | Some (fp, r3) =>
          let exp_part :=
            match r3 with
            | String c r4 =>
                if Ascii.eqb c "e"%char || Ascii.eqb c "E"%char then
                  let '(sg, r5) :=
                    match r4 with
                    | String c5 r5 =>
                        if Ascii.eqb c5 "+"%char then (1, r5)
                        else if Ascii.eqb c5 "-"%char then (-1, r5) else (1, r4)
                    | EmptyString => (1, r4)
                    end in
                  let '(d, r6) := take_digits r5 in
                  match d with
                  | EmptyString => None
                  | _ => option_map (fun x => (sg * x, r6)) (radix_value 10 0 d)
                  end
                else Some (0, r3)
            | EmptyString => Some (0, r3)
            end in
          match exp_part with
          | None => None
          | Some (x, r7) =>
              match radix_value 10 0 (ip ++ fp) with
              | Some M => Some (round_decimal neg M (x - Z.of_nat (String.length fp)), r7)
              | None => None
              end
          end
      end
  end.

(** The elements of an array after its ["["], given the value parser. *)
Fixpoint parse_elements (pv : string -> option (json * string)) (fuel : nat)
    (acc : list json) (s : string) : option (json * string) :=
  match fuel with
  | O => None
  | S f =>
      match pv s with
      | None => None
      | Some (v, r) =>
          match skip_ws r with
          | String c r' =>
              if Ascii.eqb c ","%char then parse_elements pv f (v :: acc) r'
              else if Ascii.eqb c "]"%char then Some (JArr (rev (v :: acc)), r')
              else None
          | EmptyString => None
          end
      end
  end.

(** The members of an object after its ["{"], given the value parser. *)
Fixpoint parse_members (pv : string -> option (json * string)) (fuel : nat)
    (acc : list (string * json)) (s : string) : option (json * string) :=
  match fuel with
  | O => None
  | S f =>
      match skip_ws s with
      | String c r =>
          if Ascii.eqb c dq then
            match parse_string_body r with
            | Some (k, r1) =>
                match skip_ws r1 with
                | String c1 r2 =>
                    if Ascii.eqb c1 ":"%char then
                      match pv r2 with
                      | Some (v, r3) =>
                          match skip_ws r3 with
                          | String c3 r4 =>
                              if Ascii.eqb c3 ","%char then parse_members pv f ((k, v) :: acc) r4
                              else if Ascii.eqb c3 "}"%char then Some (JObj (rev ((k, v) :: acc)), r4)
                              else None
                          | EmptyString => None
                          end
                      | None => None
                      end
                    else None
                | EmptyString => None
                end
            | None => None
            end
          else None
      | EmptyString => None
      end
  end.

(** One JSON value after optional whitespace, and the text after it.  Each
    nesting level and each element consumes at least one character, so
    [String.length s + 1] is enough fuel for [s]. *)
Fixpoint parse_value (fuel : nat) (s : string) : option (json * string) :=
  match fuel with
  | O => None
  | S f =>
      match skip_ws s with
      | EmptyString => None
      | String c r =>
          if Ascii.eqb c dq then
            match parse_string_body r with
            | Some (t, r') => Some (JStr t, r')
            | None => None
            end
          else if Ascii.eqb c "["%char then
            match skip_ws r with
            | String c' r' =>
                if Ascii.eqb c' "]"%char then Some (JArr [], r')
                else parse_elements (parse_value f) f [] r
            | EmptyString => None
            end
          else if Ascii.eqb c "{"%char then
            match skip_ws r with
            | String c' r' =>
                if Ascii.eqb c' "}"%char then Some (JObj [], r')
                else parse_members (parse_value f) f [] r
            | EmptyString => None
            end
          else if Ascii.eqb c "t"%char then
            if String.prefix "rue" r then Some (JBool true, str_drop 3 r) else None
          else if Ascii.eqb c "f"%char then
            if String.prefix "alse" r then Some (JBool false, str_drop 4 r) else None
          else if Ascii.eqb c "n"%char then
            if String.prefix "ull" r then Some (JNull, str_drop 3 r) else None
          else
            match parse_number (String c r) with
            | Some (n, r') => Some (JNum n, r')
            | None => None
            end
      end
  end.

(** [JSON.parse(text)]; [None] where it throws a SyntaxError. *)
Definition JSON_parse (text : string) : option json :=
  match parse_value (S (String.length text)) text with
  | Some (v, r) => if String.eqb (skip_ws r) EmptyString then Some v else None
  | None => None
  end.

Definition hex_char (d : nat) : ascii :=
  if (d <? 10)%nat then ascii_of_nat (48 + d) else ascii_of_nat (87 + d).

(** QuoteJSONString, one code unit. *)
Definition quote_char (c : ascii) : string :=
  let n := code c in
  if (n =? 8)%nat then String bs "b"
  else if (n =? 9)%nat then String bs "t"
  else if (n =? 10)%nat then String bs "n"
  else if (n =? 12)%nat then String bs "f"
  else if (n =? 13)%nat then String bs "r"
  else if (n =? 34)%nat then String bs (String dq EmptyString)
  else if (n =? 92)%nat then String bs (String bs EmptyString)
  else if (n <? 32)%nat then
    String bs ("u00" ++ String (hex_char (n / 16)) (String (hex_char (n mod 16)) EmptyString))
  else String c EmptyString.

Fixpoint quote_body (s : string) : string :=
  match s with
  | EmptyString => EmptyString
  | String c s' => quote_char c ++ quote_body s'
  end.

Definition quote (s : string) : string := String dq (quote_body s ++ String dq EmptyString).

(** [JSON.stringify(a)] for an array [a] of strings. *)
Definition stringify_strings (l : list string) : string :=
  "[" ++ String.concat "," (map quote l) ++ "]".

(** [ToBoolean] *)
Definition truthy (v : option json) : bool :=
  match v with
  | None | Some JNull => false
  | Some (JBool b) => b
  | Some (JNum n) => match n with S754_zero _ | S754_nan => false | _ => true end
  | Some (JStr s) => non_empty s
  | Some (JArr _) | Some (JObj _) => true
  end.

(** [String(v)]; an array joins its elements with a comma, [null] giving
    the empty string. *)
Fixpoint js_String (v : json) : string :=
  match v with
  | JNull => "null"
  | JBool true => "true"
  | JBool false => "false"
  | JNum n => Number_toString n
  | JStr s => s
  | JArr l =>
      String.concat ","
        ((fix go (l : list json) : list string :=
            match l with
            | [] => []
            | x :: t => match x with JNull => EmptyString | _ => js_String x end :: go t
            end) l)
  | JObj _ => "[object Object]"
  end.

Definition js_String_opt (v : option json) : string :=
  match v with None => "undefined" | Some x => js_String x end.

(** [arr.join(sep)]: [null] and [undefined] elements give the empty string. *)
Definition js_join (sep : string) (l : list (option json)) : string :=
  String.concat sep
    (map (fun x => match x with None | Some JNull => EmptyString | Some v => js_String v end) l).

(** [a && b] *)
Definition js_and (a b : option json) : option json := if truthy a then b else a.

(** [a ?? b] *)
Definition js_coalesce (a b : option json) : option json :=
  match a with None | Some JNull => b | _ => a end.

(** The value of the last member named [k]. *)
Fixpoint lookup_last (k : string) (l : list (string * json)) : option json :=
  match l with
  | [] => None
  | (k', v) :: t =>
      match lookup_last k t with
      | Some w => Some w
      | None => if String.eqb k' k then Some v else None
      end
  end.

(** [v?.k] for a named property that neither arrays, strings nor
    the prototypes define. *)
Definition get_prop (v : json) (k : string) : option json :=
  match v with
  | JObj l => lookup_last k l
  | _ => None
  end.

(** [v?.[0]] *)
Definition get_index0 (v : json) : option json :=
  match v with
  | JArr l => nth_error l 0
  | JStr (String c _) => Some (JStr (String c EmptyString))
  | JObj l => lookup_last "0" l
  | _ => None
  end.

End Json.

Import Json.

(* ------------------------------------------------------------------ *)
(** ** The VIN screen ([src/app/(tabs)/explore.tsx]) *)

Module VinScreen.

Definition RECENTS_KEY : string := "vin_recents_v1".
Definition MAX_RECENTS : nat := 10.

(** AsyncStorage as a map from keys to stored text. *)
Definition Storage : Type := string -> option string.

Definition setItem (st : Storage) (k v : string) : Storage :=
  fun k' => if String.eqb k' k then Some v else st k'.

(** [loadRecents]: the stored text, if any, parsed as JSON; the strings of
    an array, [[]] otherwise and when parsing throws. *)
Definition loadRecents (st : Storage) : list string :=
  match st RECENTS_KEY with
  | None | Some EmptyString => []
  | Some raw =>
      match JSON_parse raw with
      | Some (JArr arr) => flat_map (fun x => match x with JStr s => [s] | _ => [] end) arr
      | _ => []
      end
  end.

Definition saveRecents (st : Storage) (recents : list string) : Storage :=
  setItem st RECENTS_KEY (stringify_strings recents).

(** The list [pushRecent] stores:
    [[v, ...recents.filter((x) => x !== v)].slice(0, MAX_RECENTS)]. *)
Definition pushRecent (recents : list string) (v : string) : list string :=
  firstn MAX_RECENTS (v :: filter (fun x => negb (String.eqb x v)) recents).

(** [type VinField]; the value is whatever the code put there. *)
Record VinField := mkField { label : string; value : option json }.

Definition no_fields : VinField :=
  {| label := "Result"; value := Some (JStr "Decoded, but no common fields present.") |}.

(** [f.value && String(f.value).trim().length > 0] *)
Definition keep_field (f : VinField) : bool :=
  truthy (value f) && (0 <? String.length (trim (js_String_opt (value f))))%nat.

(** [json?.Results?.[0]] *)
Definition first_result (body : json) : option json :=
  match get_prop body "Results" with
  | Some res => get_index0 res
  | None => None
  end.

(** The separator of the engine parts (space, U+2022 BULLET, space) has a
    code unit above U+00FF: it is a parameter. *)
Section Decode.

Variable engine_sep : string.

(** The candidate fields of [decodeVin] for the first result [r]. *)
Definition candidate_fields (r : json) : list VinField :=
  let p := get_prop r in
  [ {| label := "Make"; value := p "Make" |};
    {| label := "Model"; value := p "Model" |};
    {| label := "Year"; value := p "ModelYear" |};
    {| label := "Trim"; value := p "Trim" |};
    {| label := "Body Class"; value := p "BodyClass" |};
    {| label := "Vehicle Type"; value := p "VehicleType" |};
    {| label := "Engine";
       value := Some (JStr (js_join engine_sep
                  (filter truthy
                     [p "EngineModel";
                      js_and (p "DisplacementL")
                        (Some (JStr (js_String_opt (p "DisplacementL") ++ "L")));
                      js_and (p "EngineCylinders")
                        (Some (JStr (js_String_opt (p "EngineCylinders") ++ " cyl")))]))) |};
    {| label := "Fuel"; value := p "FuelTypePrimary" |};
    {| label := "Plant";
       value := Some (JStr (js_join ", "
                  (filter truthy [p "PlantCity"; p "PlantState"; p "PlantCountry"]))) |} ].

(** The body of [decodeVin]'s [try] after [fetch]: the response status and
    its parsed body give the error message thrown ([inl]) or the fields
    set ([inr]). *)
Definition decodeResponse (ok : bool) (status : num) (body : json) : string + list VinField :=
  if negb ok then inl ("HTTP " ++ Number_toString status) else
  let r := first_result body in
  match r with
  | Some rv =>
      if truthy r then
        let picked := filter keep_field (candidate_fields rv) in
        inr (match picked with [] => [no_fields] | _ => picked end)
      else inl "No results returned."
  | None => inl "No results returned."
  end.



End Decode.

(** [onDecodePress]: the VIN passed to [decodeVin], if any. *)
Definition onDecodePress (toUpperCase : string -> string) (vinInput : string) : option string :=
  let vin := normalizeVin toUpperCase vinInput in
  if is_some (validateVin vin) then None
  else if negb (String.length vin =? 17)%nat then None
  else Some vin.

(** [disabled={loading || !!vinError || vin.length !== 17}] *)
Definition decode_disabled (toUpperCase : string -> string) (loading : bool) (vinInput : string) : bool :=
  let vin := normalizeVin toUpperCase vinInput in
  loading || is_some (validateVin vin) || negb (String.length vin =? 17)%nat.

(** [allText] of the scan handler from the recognizer's result; [None] where
    reading [b.text] throws (a [null] block). *)
Definition ocr_text (result : option json) : option string :=
  match result with
  | Some (JArr blocks) =>
      let texts := map (fun b => match b with
                                 | JNull => None
                                 | _ => Some (js_coalesce (get_prop b "text") (Some (JStr EmptyString)))
                                 end) blocks in
      if forallb (fun t => is_some t) texts
      then Some (js_join (String "010" EmptyString) (map (fun t => match t with Some x => x | None => None end) texts))
      else None
  | _ => Some (js_String_opt (js_coalesce result (Some (JStr EmptyString))))
  end.

End VinScreen.

Import VinScreen.

(** The labels of the nine candidate fields of [decodeVin], in order. *)
Definition field_labels : list string :=
  ["Make"; "Model"; "Year"; "Trim"; "Body Class"; "Vehicle Type"; "Engine"; "Fuel"; "Plant"].

(** The properties of [json?.Results?.[0]] read by the field list. *)
Definition common_keys : list string :=
  ["Make"; "Model"; "ModelYear"; "Trim"; "BodyClass"; "VehicleType"; "EngineModel";
   "DisplacementL"; "EngineCylinders"; "FuelTypePrimary"; "PlantCity"; "PlantState";
   "PlantCountry"].

(** Characters of a number literal as printed by [String(n)] and [toFixed]. *)
Definition num_char (c : ascii) : bool :=
  is_digit c || Ascii.eqb c "."%char || Ascii.eqb c "-"%char ||
  Ascii.eqb c "+"%char || Ascii.eqb c "e"%char.

(* ================================================================== *)
(** * Properties *)

(** ** Calculator: auxiliary lemmas *)

Lemma press_all_cons s k ks :
  press_all s (k :: ks) = press_all (reducer s (onKeyPress k)) ks.
Proof. reflexivity. Qed.

Lemma reachable_press_all s ks : reachable s -> reachable (press_all s ks).
Proof.
  revert s; induction ks as [|k ks IH]; intros s Hs; [exact Hs|].
  rewrite press_all_cons; apply IH; constructor; exact Hs.
Qed.

Lemma reachable_run ks : reachable (run ks).
Proof. apply reachable_press_all; constructor. Qed.

Ltac destruct_all_matches :=
  repeat match goal with
  | |- context [if ?b then _ else _] => destruct b
  | |- context [match ?x with _ => _ end] => destruct x
  end.

(** One reducer step keeps [op] and [acc] both set or both unset. *)
Lemma reducer_pairs_op_acc s a :
  (op s = None <-> acc s = None) ->
  (op (reducer s a) = None <-> acc (reducer s a) = None).
Proof.
  destruct s as [d ac o en je]; simpl; intros H.
  destruct a; unfold reducer; simpl; destruct_all_matches; simpl;
    try tauto; split; congruence.
Qed.

(** Rounding a non-negative mantissa never gives NaN. *)
Lemma shr_1_nonneg r : (0 <= shr_m r)%Z -> (0 <= shr_m (shr_1 r))%Z.
Proof.
  destruct r as [m rr ss]; simpl; intros H.
  destruct m as [|p|p]; [simpl; lia| |lia].
  destruct p; simpl; lia.
Qed.

Lemma iter_shr_1_nonneg p r :
  (0 <= shr_m r)%Z -> (0 <= shr_m (iter_pos shr_1 p r))%Z.
Proof.
  revert r; induction p as [p IH|p IH|]; intros r H; simpl.
  - apply IH, IH, shr_1_nonneg, H.
  - apply IH, IH, H.
  - apply shr_1_nonneg, H.
Qed.

Lemma shr_fexp_nonneg m e l :
  (0 <= m)%Z -> (0 <= shr_m (fst (shr_fexp prec emax m e l)))%Z.
Proof.
  intros H; unfold shr_fexp, shr.
  assert (Hm : shr_m (shr_record_of_loc m l) = m)
    by (destruct l as [|[]]; reflexivity).
  destruct (_ - _)%Z; simpl; try (rewrite Hm; exact H).
  apply iter_shr_1_nonneg; rewrite Hm; exact H.
Qed.

Lemma binary_round_aux_not_nan sx mx ex lx :
  (0 <= mx)%Z -> binary_round_aux prec emax sx mx ex lx <> S754_nan.
Proof.
  intros H; unfold binary_round_aux.
  pose proof (shr_fexp_nonneg mx ex lx H) as H1.
  destruct (shr_fexp prec emax mx ex lx) as [r1 e1]; simpl in H1.
  assert (H2 : (0 <= round_nearest_even (shr_m r1) (loc_of_shr_record r1))%Z)
    by (destruct (loc_of_shr_record r1) as [|[]]; simpl;
        try destruct (Z.even _); lia).
  pose proof (shr_fexp_nonneg _ e1 loc_Exact H2) as H3.
  destruct (shr_fexp prec emax _ e1 loc_Exact) as [r2 e2]; simpl in H3.
  destruct (shr_m r2); [discriminate| |lia].
  destruct (_ <=? _)%Z; discriminate.
Qed.

Lemma div_eucl_fst_nonneg a b : (0 <= a)%Z -> (0 < b)%Z -> (0 <= fst (Z.div_eucl a b))%Z.
Proof.
  intros Ha Hb; pose proof (Z.div_pos a b Ha Hb) as H.
  unfold Z.div in H; destruct (Z.div_eucl a b); exact H.
Qed.

Lemma div_finite_not_nan sx mx ex sy my ey :
  div (S754_finite sx mx ex) (S754_finite sy my ey) <> S754_nan.
Proof.
  unfold div; simpl.
  unfold SFdiv_core_binary.
  match goal with
  | |- context [Z.div_eucl ?a ?b] =>
      assert (Ha : (0 <= a)%Z) by (destruct (_ - _)%Z;
                                   [lia | apply Z.shiftl_nonneg; lia | lia]);
      pose proof (div_eucl_fst_nonneg a b Ha ltac:(lia)) as Hq;
      destruct (Z.div_eucl a b) as [q r]
  end.
  apply binary_round_aux_not_nan; exact Hq.
Qed.

(** ** Calculator: claims *)

(** C1 (as stated, refuted).  The claim: after [5 ÷ 0 =] shows "Error",
    chaining [op d =] still yields "Error".  With [op = +] and [d = 3] the
    display is "3": [toNumber] reads the "Error" display as 0. *)
Lemma C1_counterexample :
  display (run [K_D5; K_DIV; K_D0; K_EQ; K_ADD; K_D3; K_EQ]) = "3".
Proof. vm_compute; reflexivity. Qed.

(** C1 (amended).  After [5 ÷ 0 =] the display is "Error" and both
    [acc] and [op] are cleared; Clear returns to [initialState].  Chaining
    [op d =] instead reads "Error" as the number 0 ([toNumber] maps a
    non-finite value to 0), so it shows [formatNumber (applyOp 0 d op)].
    The NaN value propagates only while it is kept in the accumulator: the
    chain [5 ÷ 0 op d =] (operator pressed before [=]) shows "Error" for
    every operator and digit. *)
Theorem C1_error_display_reads_as_zero :
  let s0 := run [K_D5; K_DIV; K_D0; K_EQ] in
  display s0 = "Error" /\ acc s0 = None /\ op s0 = None /\
  reducer s0 CLEAR = initialState /\
  toNumber "Error" = pos_zero /\
  (forall o, Forall (fun d =>
      display (press_all s0 [op_key o; d; K_EQ])
      = formatNumber (applyOp pos_zero (toNumber (key_digit d)) o)) digit_keys) /\
  (forall o, Forall (fun d =>
      display (run [K_D5; K_DIV; K_D0; op_key o; d; K_EQ]) = "Error") digit_keys).
Proof.
  cbv zeta.
  split; [vm_compute; reflexivity|].
  split; [vm_compute; reflexivity|].
  split; [vm_compute; reflexivity|].
  split; [reflexivity|].
  split; [vm_compute; reflexivity|].
  split; intros o; destruct o;
    repeat (apply Forall_cons; [vm_compute; reflexivity|]); apply Forall_nil.
Qed.

(** C2 (code defect).  The display stops being a numeric literal: after
    [1 % % % %] the display is the exponent form "1e-8" while [entering]
    stays true, [.] is appended because the display has no "." yet, and the
    next digit gives "1e-8.5", which [Number] reads as NaN. *)
Theorem C2_display_leaves_literal_syntax :
  let s := run [K_D1; K_PCT; K_PCT; K_PCT; K_PCT; K_DOT; K_D5] in
  reachable s /\ display s = "1e-8.5" /\ valid_display (display s) = false /\
  Number (display s) = NaN.
Proof.
  cbv zeta.
  split; [apply reachable_run|].
  split; [vm_compute; reflexivity|].
  split; vm_compute; reflexivity.
Qed.

(** C3.  [3 + 4 × 2 =] shows "14": pressing [×] while [+] is pending, an
    accumulator exists and the operand is being entered evaluates [3 + 4]
    at once; the result is the new accumulator and the display, and [×]
    becomes pending. *)
Theorem C3_chained_operator_left_to_right :
  display (run [K_D3; K_ADD; K_D4; K_MUL; K_D2; K_EQ]) = "14" /\
  display (run [K_D3; K_ADD; K_D4; K_MUL]) = "7" /\
  acc (run [K_D3; K_ADD; K_D4; K_MUL]) = Some (Number "7") /\
  forall s a pending o,
    op s = Some pending -> acc s = Some a -> entering s = true ->
    reducer s (OP o) =
      {| display := formatNumber (applyOp a (toNumber (display s)) pending);
         acc := Some (applyOp a (toNumber (display s)) pending);
         op := Some o; entering := false; justEvaluated := false |}.
Proof.
  split; [vm_compute; reflexivity|].
  split; [vm_compute; reflexivity|].
  split; [vm_compute; reflexivity|].
  intros s a pending o Hop Hacc Hent.
  unfold reducer; rewrite Hop, Hacc, Hent; reflexivity.
Qed.

Lemma C3_witness :
  op (run [K_D3; K_ADD; K_D4]) = Some OpAdd /\
  acc (run [K_D3; K_ADD; K_D4]) = Some (Number "3") /\
  entering (run [K_D3; K_ADD; K_D4]) = true /\
  reducer (run [K_D3; K_ADD; K_D4]) (OP OpMul) =
    {| display := formatNumber (applyOp (Number "3") (toNumber "4") OpAdd);
       acc := Some (applyOp (Number "3") (toNumber "4") OpAdd);
       op := Some OpMul; entering := false; justEvaluated := false |}.
Proof.
  split; [vm_compute; reflexivity|].
  split; [vm_compute; reflexivity|].
  split; [vm_compute; reflexivity|].
  apply (proj2 (proj2 (proj2 C3_chained_operator_left_to_right)));
    vm_compute; reflexivity.
Defined.

(** C4.  [applyOp] on [÷] returns the NaN sentinel exactly when the second
    operand is [=== 0], and [a / b] otherwise (never NaN for finite [a] and
    finite non-zero [b]); non-finite values format to "Error"; so
    [5 ÷ 0 =] shows "Error".  All of it is an ordinary (total) function. *)
Theorem C4_division_by_zero_is_error :
  (forall a b, applyOp a b OpDiv = if is_zero b then NaN else div a b) /\
  (forall a b, isFinite a = true -> isFinite b = true -> is_zero b = false ->
               applyOp a b OpDiv <> NaN) /\
  (forall n, isFinite n = false -> formatNumber n = "Error") /\
  display (run [K_D5; K_DIV; K_D0; K_EQ]) = "Error".
Proof.
  split; [reflexivity|].
  split.
  - intros a b Ha Hb Hz; unfold applyOp; rewrite Hz.
    destruct b as [sb| | |sb mb eb]; simpl in Hb, Hz; try discriminate.
    destruct a as [sa| | |sa ma ea]; simpl in Ha; try discriminate.
    apply div_finite_not_nan.
  - split; [intros n Hn; unfold formatNumber; rewrite Hn; reflexivity|].
    vm_compute; reflexivity.
Qed.

Lemma C4_witness :
  isFinite (Number "5") = true /\ isFinite (Number "2") = true /\
  is_zero (Number "2") = false /\ applyOp (Number "5") (Number "2") OpDiv <> NaN.
Proof.
  split; [vm_compute; reflexivity|].
  split; [vm_compute; reflexivity|].
  split; [vm_compute; reflexivity|].
  apply (proj1 (proj2 C4_division_by_zero_is_error));
    vm_compute; reflexivity.
Defined.

(** C5.  In every reachable state [op] is set exactly when [acc] is. *)
Theorem C5_op_iff_acc :
  forall s, reachable s -> (op s = None <-> acc s = None).
Proof.
  intros s Hs; induction Hs as [|s k Hs IH].
  - simpl; tauto.
  - apply reducer_pairs_op_acc, IH.
Qed.

Lemma C5_witness :
  reachable (run [K_D3; K_ADD]) /\
  (op (run [K_D3; K_ADD]) = None <-> acc (run [K_D3; K_ADD]) = None).
Proof.
  assert (H : reachable (run [K_D3; K_ADD]))
    by (apply (reach_key _ K_ADD); apply (reach_key _ K_D3); apply reach_init).
  split; [exact H|].
  apply C5_op_iff_acc; exact H.
Defined.

(** C6.  Percent sets the display to [formatNumber (toNumber display / 100)],
    clears [justEvaluated] and keeps [acc], [op], [entering]. *)
Theorem C6_percent_frame :
  hundred = S754_finite false 7036874417766400 (-46) /\
  (7036874417766400 = 100 * 2 ^ 46)%Z /\
  display (run [K_D5; K_D0; K_PCT]) = "0.5" /\
  forall s,
    reducer s PERCENT =
      {| display := formatNumber (div (toNumber (display s)) hundred);
         acc := acc s; op := op s; entering := entering s;
         justEvaluated := false |}.
Proof.
  split; [vm_compute; reflexivity|].
  split; [reflexivity|].
  split; [vm_compute; reflexivity|].
  intros s; reflexivity.
Qed.

(** C10.  A second [=] never repeats the operation: [=] twice shows what
    [=] once shows, in every state; [3 + 4 = =] shows "7". *)
Theorem C10_equals_twice_same_display :
  display (run [K_D3; K_ADD; K_D4; K_EQ; K_EQ]) = "7" /\
  forall s,
    display (reducer (reducer s EQUALS) EQUALS) = display (reducer s EQUALS).
Proof.
  split; [vm_compute; reflexivity|].
  intros [d ac o en je]; unfold reducer; simpl.
  destruct o, ac; reflexivity.
Qed.

(** ** VIN helpers: auxiliary lemmas *)

Open Scope nat_scope.

Lemma AZ09_not_ws c : is_AZ09 c = true -> is_js_ws c = false.
Proof.
  unfold is_AZ09, is_digit, is_js_ws; intros H.
  apply orb_true_iff in H.
  destruct H as [H|H]; apply andb_true_iff in H; destruct H as [H1 H2];
    apply Nat.leb_le in H1, H2;
    repeat rewrite orb_false_iff; repeat split;
    try (apply andb_false_iff; (left; apply Nat.leb_gt; lia) || (right; apply Nat.leb_gt; lia));
    apply Nat.eqb_neq; lia.
Qed.

Lemma ws_of_cleaned c : is_js_ws (clean_char c) = negb (is_AZ09 c).
Proof.
  unfold clean_char.
  destruct (is_AZ09 c) eqn:E; [apply AZ09_not_ws, E | reflexivity].
Qed.

Lemma split_ws_nonws c s :
  is_js_ws c = false ->
  split_ws (String c s) = match split_ws s with
                          | h :: t => String c h :: t
                          | [] => [String c EmptyString]
                          end.
Proof. intros H; simpl; rewrite H; reflexivity. Qed.

Lemma split_ws_ws_nonws c c' s :
  is_js_ws c = true -> is_js_ws c' = false ->
  split_ws (String c (String c' s)) = EmptyString :: split_ws (String c' s).
Proof.
  intros H H'.
  change (split_ws (String c (String c' s)))
    with (if is_js_ws c then
            (if is_js_ws c' then split_ws (String c' s)
             else EmptyString :: split_ws (String c' s))
          else match split_ws (String c' s) with
               | h :: t => String c h :: t
               | [] => [String c EmptyString]
               end).
  rewrite H, H'; reflexivity.
Qed.

Lemma split_ws_ws_ws c c' s :
  is_js_ws c = true -> is_js_ws c' = true ->
  split_ws (String c (String c' s)) = split_ws (String c' s).
Proof.
  intros H H'.
  change (split_ws (String c (String c' s)))
    with (if is_js_ws c then
            (if is_js_ws c' then split_ws (String c' s)
             else EmptyString :: split_ws (String c' s))
          else match split_ws (String c' s) with
               | h :: t => String c h :: t
               | [] => [String c EmptyString]
               end).
  rewrite H, H'; reflexivity.
Qed.

Lemma split_ws_ws_head c s :
  is_js_ws c = true -> exists t, split_ws (String c s) = EmptyString :: t.
Proof.
  revert c; induction s as [|c' s IH]; intros c Hc.
  - simpl; rewrite Hc; eexists; reflexivity.
  - destruct (is_js_ws c') eqn:E.
    + rewrite split_ws_ws_ws by assumption; apply IH, E.
    + rewrite split_ws_ws_nonws by assumption; eexists; reflexivity.
Qed.

Lemma split_on_cons p c s :
  split_on p (String c s) =
  if p c then EmptyString :: split_on p s
  else match split_on p s with
       | h :: t => String c h :: t
       | [] => [String c EmptyString]
       end.
Proof. reflexivity. Qed.

Lemma split_on_nonnil p s : exists h t, split_on p s = h :: t.
Proof.
  destruct s as [|c s]; simpl; [eexists _, _; reflexivity|].
  destruct (p c); [eexists _, _; reflexivity|].
  destruct (split_on p s); eexists _, _; reflexivity.
Qed.

(** [split(/\s+/)] on the cleaned text and splitting the text at each
    non-alphanumeric character agree on the first piece and on the
    non-empty pieces. *)
Lemma split_ws_cleaned u :
  exists h t1 t2,
    split_ws (str_map clean_char u) = h :: t1 /\
    split_on (fun c => negb (is_AZ09 c)) u = h :: t2 /\
    filter non_empty t1 = filter non_empty t2.
Proof.
  induction u as [|c u IH].
  - exists EmptyString, [], []; auto.
  - destruct IH as (h & t1 & t2 & E1 & E2 & E3).
    change (str_map clean_char (String c u)) with (String (clean_char c) (str_map clean_char u)).
    rewrite split_on_cons.
    pose proof (ws_of_cleaned c) as Hc.
    destruct (is_AZ09 c) eqn:Ec; simpl negb in Hc |- *.
    + rewrite split_ws_nonws, E1, E2 by exact Hc.
      exists (String (clean_char c) h), t1, t2.
      split; [reflexivity|].
      split; [unfold clean_char; rewrite Ec; reflexivity | exact E3].
    + rewrite E2.
      destruct u as [|c' u'].
      * simpl in E1; injection E1 as <- <-.
        exists EmptyString, [EmptyString], (EmptyString :: t2).
        split; [simpl; rewrite Hc; reflexivity|].
        split; [reflexivity|].
        simpl; rewrite <- E3; reflexivity.
      * change (str_map clean_char (String c' u'))
          with (String (clean_char c') (str_map clean_char u')) in E1 |- *.
        pose proof (ws_of_cleaned c') as Hc'.
        destruct (is_AZ09 c') eqn:Ec'; simpl negb in Hc'.
        -- rewrite split_ws_ws_nonws, E1 by assumption.
           exists EmptyString, (h :: t1), (h :: t2).
           split; [reflexivity|]. split; [reflexivity|].
           simpl; rewrite E3; reflexivity.
        -- rewrite split_ws_ws_ws, E1 by assumption.
           destruct (split_ws_ws_head _ (str_map clean_char u') Hc') as [t Ht].
           rewrite Ht in E1; injection E1 as <- <-.
           exists EmptyString, t, (EmptyString :: t2).
           split; [reflexivity|]. split; [reflexivity|].
           simpl; exact E3.
Qed.

Lemma tokens_of_cleaned u :
  filter non_empty (split_ws (str_map clean_char u)) = alnum_tokens u.
Proof.
  unfold alnum_tokens.
  destruct (split_ws_cleaned u) as (h & t1 & t2 & E1 & E2 & E3).
  rewrite E1, E2; simpl; rewrite E3; reflexivity.
Qed.

Lemma append_empty_r s : (s ++ EmptyString)%string = s.
Proof. induction s as [|c s IH]; simpl; [reflexivity | rewrite IH; reflexivity]. Qed.

Lemma concat_empty_sep l : String.concat "" l = fold_right String.append EmptyString l.
Proof.
  induction l as [|x l IH]; [reflexivity|].
  destruct l as [|y l]; simpl.
  - symmetry; apply append_empty_r.
  - simpl in IH; rewrite IH; reflexivity.
Qed.

Lemma fold_append_non_empty l :
  fold_right String.append EmptyString (filter non_empty l)
  = fold_right String.append EmptyString l.
Proof.
  induction l as [|x l IH]; [reflexivity|].
  destruct x; simpl; rewrite IH; reflexivity.
Qed.

Lemma fold_append_split_on u :
  fold_right String.append EmptyString (split_on (fun c => negb (is_AZ09 c)) u)
  = str_filter is_AZ09 u.
Proof.
  induction u as [|c u IH]; [reflexivity|].
  rewrite split_on_cons; simpl str_filter.
  destruct (is_AZ09 c); simpl negb.
  - destruct (split_on_nonnil (fun c => negb (is_AZ09 c)) u) as (h & t & E).
    rewrite E in IH |- *; simpl in IH |- *; rewrite IH; reflexivity.
  - exact IH.
Qed.

Lemma joined_of_cleaned u :
  str_filter (fun c => negb (is_js_ws c)) (str_map clean_char u)
  = String.concat "" (alnum_tokens u).
Proof.
  unfold alnum_tokens.
  rewrite concat_empty_sep, fold_append_non_empty, fold_append_split_on.
  induction u as [|c u IH]; [reflexivity|].
  simpl; rewrite ws_of_cleaned.
  destruct (is_AZ09 c) eqn:E; simpl; rewrite IH; [|reflexivity].
  unfold clean_char; rewrite E; reflexivity.
Qed.

Lemma substring_drop i n j : substring i n j = substring 0 n (str_drop i j).
Proof.
  revert j; induction i as [|i IH]; intros j; [reflexivity|].
  destruct j as [|c j]; simpl; [destruct n; reflexivity | apply IH].
Qed.

Lemma length_drop i j : String.length (str_drop i j) = String.length j - i.
Proof.
  revert j; induction i as [|i IH]; intros j; simpl; [lia|].
  destruct j as [|c j]; simpl; [reflexivity | apply IH].
Qed.

Lemma drop_succ i j c s :
  str_drop i j = String c s -> str_drop (S i) j = s.
Proof.
  revert j; induction i as [|i IH]; intros j H.
  - simpl in H; subst; reflexivity.
  - destruct j as [|c' j]; simpl in H |- *; [discriminate | apply IH, H].
Qed.

Lemma first_window_cons c s :
  first_window (String c s) =
  if 17 <=? String.length (String c s) then
    if negb (has_IOQ (substring 0 17 (String c s)))
    then Some (substring 0 17 (String c s)) else first_window s
  else None.
Proof. reflexivity. Qed.

Lemma first_window_short s : String.length s < 17 -> first_window s = None.
Proof.
  intros H; destruct s as [|c s]; [reflexivity|].
  rewrite first_window_cons; replace (17 <=? String.length (String c s)) with false
    by (symmetry; apply Nat.leb_gt; exact H); reflexivity.
Qed.

(** The index loop over windows is the left-to-right scan of suffixes. *)
Lemma scan_windows_first_window j fuel i :
  String.length j < i + fuel -> scan_windows j i fuel = first_window (str_drop i j).
Proof.
  revert i; induction fuel as [|f IH]; intros i H; simpl.
  - symmetry; apply first_window_short; rewrite length_drop; lia.
  - destruct (i + 17 <=? String.length j) eqn:E.
    + apply Nat.leb_le in E.
      rewrite substring_drop.
      destruct (str_drop i j) as [|c s] eqn:D.
      * pose proof (length_drop i j) as L; rewrite D in L; simpl in L; lia.
      * pose proof (length_drop i j) as L; rewrite D in L.
        rewrite first_window_cons.
        replace (17 <=? String.length (String c s)) with true
          by (symmetry; apply Nat.leb_le; lia).
        destruct (negb (has_IOQ (substring 0 17 (String c s)))); [reflexivity|].
        rewrite IH by lia. rewrite (drop_succ i j c s D); reflexivity.
    + apply Nat.leb_gt in E.
      symmetry; apply first_window_short; rewrite length_drop; lia.
Qed.

Lemma all_str_filter p s : all_str p (str_filter p s) = true.
Proof.
  induction s as [|c s IH]; simpl; [reflexivity|].
  destruct (p c) eqn:E; simpl; [rewrite E, IH; reflexivity | exact IH].
Qed.

Lemma str_filter_all p s : all_str p s = true -> str_filter p s = s.
Proof.
  induction s as [|c s IH]; simpl; [reflexivity|].
  intros H; apply andb_true_iff in H; destruct H as [H1 H2].
  rewrite H1, IH by exact H2; reflexivity.
Qed.

Lemma append_assoc a b c : (a ++ (b ++ c))%string = ((a ++ b) ++ c)%string.
Proof. induction a as [|x a IH]; simpl; [reflexivity | rewrite IH; reflexivity]. Qed.

Lemma str_rev_app a b : str_rev (a ++ b) = (str_rev b ++ str_rev a)%string.
Proof.
  induction a as [|c a IH]; simpl.
  - symmetry; apply append_empty_r.
  - rewrite IH, append_assoc; reflexivity.
Qed.

Lemma str_rev_involutive s : str_rev (str_rev s) = s.
Proof.
  induction s as [|c s IH]; simpl; [reflexivity|].
  rewrite str_rev_app, IH; reflexivity.
Qed.

Lemma all_str_app p a b : all_str p (a ++ b) = all_str p a && all_str p b.
Proof.
  induction a as [|c a IH]; simpl; [reflexivity|].
  rewrite IH, andb_assoc; reflexivity.
Qed.

Lemma all_str_rev p s : all_str p (str_rev s) = all_str p s.
Proof.
  induction s as [|c s IH]; simpl; [reflexivity|].
  rewrite all_str_app, IH; simpl; rewrite andb_true_r, andb_comm; reflexivity.
Qed.

Lemma drop_ws_AZ09 s : all_str is_AZ09 s = true -> drop_while is_js_ws s = s.
Proof.
  destruct s as [|c s]; simpl; [reflexivity|].
  intros H; apply andb_true_iff in H; destruct H as [H1 _].
  rewrite (AZ09_not_ws c H1); reflexivity.
Qed.

Lemma trim_AZ09 s : all_str is_AZ09 s = true -> trim s = s.
Proof.
  intros H; unfold trim.
  rewrite (drop_ws_AZ09 s H), drop_ws_AZ09 by (rewrite all_str_rev; exact H).
  apply str_rev_involutive.
Qed.

Lemma upper_AZ09 s : all_str is_AZ09 s = true -> ascii_toUpperCase s = s.
Proof.
  unfold ascii_toUpperCase.
  induction s as [|c s IH]; [reflexivity|].
  cbn [str_map all_str].
  intros H; apply andb_true_iff in H; destruct H as [H1 H2].
  rewrite IH by exact H2.
  unfold is_AZ09, is_digit in H1.
  replace ((97 <=? code c) && (code c <=? 122)) with false; [reflexivity|].
  symmetry; apply andb_false_iff.
  apply orb_true_iff in H1; destruct H1 as [H1|H1];
    apply andb_true_iff in H1; destruct H1 as [_ H1]; apply Nat.leb_le in H1;
    left; apply Nat.leb_gt; lia.
Qed.

(** [normalizeVin] is idempotent for every upper-casing function that
    leaves strings over [A-Z0-9] alone. *)
Lemma normalizeVin_idempotent_gen (U : string -> string) :
  (forall s, all_str is_AZ09 s = true -> U s = s) ->
  forall x, normalizeVin U (normalizeVin U x) = normalizeVin U x.
Proof.
  intros HU x; unfold normalizeVin at 1.
  pose proof (all_str_filter is_AZ09 (U (trim x))) as H.
  fold (normalizeVin U x) in H.
  rewrite trim_AZ09, HU, str_filter_all by exact H; reflexivity.
Qed.

(** ** VIN helpers: claims *)

(** C7.  For every upper-casing function and every text, [extractVinFromText]
    returns the first alphanumeric token (tokens split at non-alphanumeric
    characters of the upper-cased text) of length 17 without I, O, Q; if
    none, the first 17-character window, left to right, of the
    concatenated tokens without I, O, Q; if none, [None]. *)
Theorem C7_extractVin_two_phases :
  (forall toUpperCase text,
     extractVinFromText toUpperCase text = extract_spec toUpperCase text) /\
  extractVinFromText ascii_toUpperCase "VIN: 1hgcm82633a004352, model 2003"
    = Some "1HGCM82633A004352" /\
  extractVinFromText ascii_toUpperCase "1HGCM826-33A004352" = Some "1HGCM82633A004352" /\
  extractVinFromText ascii_toUpperCase "no vin here" = None.
Proof.
  split; [|split; [|split]]; [|vm_compute; reflexivity ..].
  intros U text; unfold extractVinFromText, extract_spec; cbv zeta.
  rewrite tokens_of_cleaned.
  change (fun c => (String.length c =? 17) && negb (has_IOQ c)) with vin_ok.
  destruct (find vin_ok (alnum_tokens (U text))); [reflexivity|].
  rewrite scan_windows_first_window by lia.
  rewrite joined_of_cleaned; reflexivity.
Qed.

(** C8.  [validateVin] returns [None] for the empty string, the length
    message exactly when a non-empty string is not 17 long, the I/O/Q
    message exactly when a 17-character string contains I, O or Q, and
    [None] otherwise; it is a total function. *)
Theorem C8_validateVin_cases :
  (forall v,
    (validateVin v = None <->
       v = EmptyString \/ (String.length v = 17 /\ has_IOQ v = false)) /\
    (validateVin v = Some "VIN must be exactly 17 characters." <->
       v <> EmptyString /\ String.length v <> 17) /\
    (validateVin v = Some "VIN cannot contain I, O, or Q." <->
       String.length v = 17 /\ has_IOQ v = true)) /\
  (forall v, has_IOQ v = true <->
     includes "I"%char v = true \/ includes "O"%char v = true \/ includes "Q"%char v = true) /\
  validateVin "1HGCM82633A00435I" = Some "VIN cannot contain I, O, or Q.".
Proof.
  split; [|split; [|vm_compute; reflexivity]].
  - intros v; unfold validateVin.
    destruct (Nat.eqb_spec (String.length v) 0) as [H0|H0].
    + assert (Hv : v = EmptyString) by (destruct v; [reflexivity | discriminate]).
      subst v; simpl; intuition congruence.
    + assert (Hv : v <> EmptyString) by (intros ->; apply H0; reflexivity).
      destruct (Nat.eqb_spec (String.length v) 17) as [H17|H17]; simpl.
      * destruct (has_IOQ v); simpl; intuition congruence.
      * intuition congruence.
  - intros v; unfold has_IOQ; rewrite !orb_true_iff; tauto.
Qed.

(** C9.  [normalizeVin] keeps only [A-Z0-9] characters, is idempotent for
    every upper-casing function that leaves [A-Z0-9] strings unchanged
    (as JS [toUpperCase] does) and in particular for ASCII upper-casing, and
    maps " 1hgcm82633a004352 " to "1HGCM82633A004352", which
    [validateVin] accepts. *)
Theorem C9_normalizeVin_idempotent :
  (forall U : string -> string,
     (forall s, all_str is_AZ09 s = true -> U s = s) ->
     forall x, normalizeVin U (normalizeVin U x) = normalizeVin U x) /\
  (forall U x, all_str is_AZ09 (normalizeVin U x) = true) /\
  (forall x, normalizeVin ascii_toUpperCase (normalizeVin ascii_toUpperCase x)
             = normalizeVin ascii_toUpperCase x) /\
  normalizeVin ascii_toUpperCase " 1hgcm82633a004352 " = "1HGCM82633A004352" /\
  validateVin "1HGCM82633A004352" = None.
Proof.
  split; [exact normalizeVin_idempotent_gen|].
  split; [intros U x; apply all_str_filter|].
  split; [apply normalizeVin_idempotent_gen, upper_AZ09|].
  split; vm_compute; reflexivity.
Qed.

Lemma C9_witness :
  (forall s, all_str is_AZ09 s = true -> ascii_toUpperCase s = s) /\
  normalizeVin ascii_toUpperCase (normalizeVin ascii_toUpperCase " 1hgcm82633a004352 ")
  = normalizeVin ascii_toUpperCase " 1hgcm82633a004352 ".
Proof.
  split; [exact upper_AZ09|].
  apply (proj1 C9_normalizeVin_idempotent); exact upper_AZ09.
Defined.

(* ------------------------------------------------------------------ *)
(** ** Further properties of the VIN screen and the calculator *)


(** ** Recents *)

Lemma In_firstn {A} n (l : list A) x : In x (firstn n l) -> In x l.
Proof.
  revert l; induction n as [|n IH]; intros l H; [destruct H|].
  destruct l as [|y l]; [destruct H|].
  destruct H as [H|H]; [left; exact H | right; apply IH, H].
Qed.

Lemma NoDup_firstn {A} n (l : list A) : NoDup l -> NoDup (firstn n l).
Proof.
  revert l; induction n as [|n IH]; intros l H; [constructor|].
  destruct l as [|y l]; [constructor|].
  inversion H as [|? ? Hy Hl]; subst; simpl; constructor.
  - intros Hin; apply Hy, (In_firstn n), Hin.
  - apply IH, Hl.
Qed.

Lemma pushRecent_eq recents v :
  pushRecent recents v = v :: firstn 9 (filter (fun x => negb (String.eqb x v)) recents).
Proof. reflexivity. Qed.

Lemma pushRecent_tail_not_v recents v x :
  In x (firstn 9 (filter (fun x => negb (String.eqb x v)) recents)) -> x <> v.
Proof.
  intros H%In_firstn; apply filter_In in H; destruct H as [_ H].
  intros ->; rewrite String.eqb_refl in H; discriminate.
Qed.

Lemma pushRecent_length recents v : List.length (pushRecent recents v) <= MAX_RECENTS.
Proof. apply firstn_le_length. Qed.

Lemma pushRecent_In recents v x :
  In x (pushRecent recents v) -> x = v \/ In x recents.
Proof.
  rewrite pushRecent_eq; intros [H|H]; [left; symmetry; exact H|right].
  apply In_firstn, filter_In in H; apply H.
Qed.

Lemma pushRecent_NoDup recents v : NoDup recents -> NoDup (pushRecent recents v).
Proof.
  intros H; rewrite pushRecent_eq; constructor.
  - intros Hin; exact (pushRecent_tail_not_v _ _ _ Hin eq_refl).
  - apply NoDup_firstn, NoDup_filter, H.
Qed.

Lemma filter_all {A} (p : A -> bool) l : (forall x, In x l -> p x = true) -> filter p l = l.
Proof.
  induction l as [|y l IH]; intros H; [reflexivity|]; simpl.
  rewrite (H y (or_introl eq_refl)), IH by (intros x Hx; apply H; right; exact Hx).
  reflexivity.
Qed.

(** X1.  [pushRecent recents v] puts [v] first, holds it exactly once, has at
    most [MAX_RECENTS] = 10 entries, and every entry is [v] or was already in
    [recents]. *)
Theorem pushRecent_front_unique_bounded :
  forall recents v,
    hd_error (pushRecent recents v) = Some v /\
    List.length (pushRecent recents v) <= 10 /\
    count_occ string_dec (pushRecent recents v) v = 1 /\
    (forall x, In x (pushRecent recents v) -> x = v \/ In x recents).
Proof.
  intros recents v; split; [reflexivity|].
  split; [apply pushRecent_length|].
  split; [|apply pushRecent_In].
  rewrite pushRecent_eq; simpl.
  destruct (string_dec v v) as [_|n]; [|contradiction].
  f_equal; apply count_occ_not_In.
  intros Hin; exact (pushRecent_tail_not_v _ _ _ Hin eq_refl).
Qed.

(** X3.  Pushing the same VIN twice in a row gives the list of pushing it once. *)
Theorem pushRecent_twice :
  forall recents v, pushRecent (pushRecent recents v) v = pushRecent recents v.
Proof.
  intros recents v; rewrite (pushRecent_eq (pushRecent recents v)), (pushRecent_eq recents).
  set (P := fun x => negb (String.eqb x v)).
  set (L := firstn 9 (filter P recents)).
  assert (E : filter P (v :: L) = filter P L)
    by (simpl; unfold P at 1; rewrite String.eqb_refl; reflexivity).
  rewrite E, filter_all.
  - unfold L; rewrite firstn_firstn; reflexivity.
  - intros x Hx; apply negb_true_iff, String.eqb_neq.
    exact (pushRecent_tail_not_v _ _ _ Hx).
Qed.

(** X2.  [pushRecent] keeps a duplicate-free recents list duplicate-free. *)
Theorem pushRecent_keeps_NoDup :
  forall recents v, NoDup recents -> NoDup (pushRecent recents v).
Proof. intros recents v H; apply pushRecent_NoDup, H. Qed.

Lemma pushRecent_keeps_NoDup_witness :
  NoDup ["A"; "B"; "C"] /\ NoDup (pushRecent ["A"; "B"; "C"] "B").
Proof.
  assert (H : NoDup ["A"; "B"; "C"]).
  { repeat constructor; simpl; intuition discriminate. }
  split; [exact H|exact (pushRecent_keeps_NoDup _ "B" H)].
Defined.

Lemma pushes_invariant vs acc :
  NoDup acc -> List.length acc <= 10 ->
  let r := fold_left pushRecent vs acc in
  NoDup r /\ List.length r <= 10 /\ (forall x, In x r -> In x vs \/ In x acc) /\
  (vs <> [] -> hd_error r = hd_error (rev vs)).
Proof.
  revert acc; induction vs as [|v vs IH]; intros acc Hnd Hlen; simpl.
  - split; [exact Hnd|]; split; [exact Hlen|]; split; [intros x H; right; exact H|].
    intros H; contradiction.
  - destruct (IH (pushRecent acc v) (pushRecent_NoDup _ _ Hnd) (pushRecent_length acc v))
      as (H1 & H2 & H3 & H4).
    split; [exact H1|]; split; [exact H2|]; split.
    + intros x Hx; destruct (H3 x Hx) as [H|H]; [left; right; exact H|].
      destruct (pushRecent_In _ _ _ H) as [->|H']; [left; left; reflexivity | right; exact H'].
    + intros _; destruct vs as [|w vs'].
      * reflexivity.
      * rewrite H4 by discriminate.
        change (rev (v :: w :: vs')) with (rev (w :: vs') ++ [v]).
        destruct (rev (w :: vs')) eqn:E; [|reflexivity].
        apply (f_equal (@List.length string)) in E; simpl in E; rewrite length_app in E; simpl in E; lia.
Qed.

(** X4.  The recents list built by any sequence of pushes from the empty list
    has no duplicates, at most 10 entries, only VINs that were pushed, and
    the last VIN pushed first. *)
Theorem recents_from_pushes :
  forall vs,
    let r := fold_left pushRecent vs [] in
    NoDup r /\ List.length r <= 10 /\ (forall x, In x r -> In x vs) /\
    hd_error r = hd_error (rev vs).
Proof.
  intros vs r.
  destruct (pushes_invariant vs [] (NoDup_nil _) (Nat.le_0_l _)) as (H1 & H2 & H3 & H4).
  split; [exact H1|]; split; [exact H2|]; split.
  - intros x Hx; destruct (H3 x Hx) as [H|[]]; exact H.
  - destruct vs as [|v vs]; [reflexivity|]. apply H4; discriminate.
Qed.

Lemma length_append a b : String.length (a ++ b) = String.length a + String.length b.
Proof. induction a as [|x a IH]; simpl; [reflexivity | rewrite IH; reflexivity]. Qed.

Lemma parse_quote_char c X :
  parse_string_body (quote_char c ++ X) = cons_char c (parse_string_body X).
Proof. destruct c as [[] [] [] [] [] [] [] []]; reflexivity. Qed.

Lemma parse_quote_body s X :
  parse_string_body (quote_body s ++ String dq X) = Some (s, X).
Proof.
  induction s as [|c s IH]; [reflexivity|].
  simpl quote_body; rewrite <- append_assoc, parse_quote_char, IH; reflexivity.
Qed.

Lemma parse_value_quote g s X :
  parse_value (S g) (quote s ++ X) = Some (JStr s, X).
Proof.
  unfold quote; simpl append.
  rewrite <- append_assoc; simpl append.
  cbn -[parse_string_body quote_body append].
  replace (is_json_ws dq) with false by reflexivity.
  replace (dq =? dq)%char with true by reflexivity.
  cbv iota beta.
  rewrite parse_quote_body; reflexivity.
Qed.

Lemma skip_ws_comma Y : skip_ws (String ","%char Y) = String ","%char Y.
Proof. reflexivity. Qed.

Lemma skip_ws_rbracket Y : skip_ws (String "]"%char Y) = String "]"%char Y.
Proof. reflexivity. Qed.

Lemma parse_elements_quoted g t s acc f X :
  List.length t < f ->
  parse_elements (parse_value (S g)) f acc
    (String.concat "," (map quote (s :: t)) ++ "]" ++ X)
  = Some (JArr (rev acc ++ map JStr (s :: t)), X).
Proof.
  revert s acc f; induction t as [|s' t IH]; intros s acc f Hf;
    (destruct f as [|f]; [simpl in Hf; lia|]).
  - simpl String.concat; cbn [parse_elements].
    rewrite parse_value_quote.
    change ("]" ++ X)%string with (String "]"%char X).
    rewrite skip_ws_rbracket.
    replace ("]" =? ",")%char with false by reflexivity.
    replace ("]" =? "]")%char with true by reflexivity.
    cbv iota beta. simpl rev; reflexivity.
  - change (String.concat "," (map quote (s :: s' :: t)))
      with (quote s ++ "," ++ String.concat "," (map quote (s' :: t)))%string.
    rewrite <- !append_assoc; cbn [parse_elements].
    rewrite parse_value_quote.
    change ("," ++ ?Z)%string with (String ","%char Z).
    rewrite skip_ws_comma.
    replace ("," =? ",")%char with true by reflexivity.
    cbv iota beta.
    rewrite IH by (simpl in Hf |- *; lia).
    simpl rev; rewrite <- app_assoc; reflexivity.
Qed.

Lemma quote_length s : 2 <= String.length (quote s).
Proof. unfold quote; simpl; rewrite length_append; simpl; lia. Qed.

Lemma concat_quote_length s t :
  2 * S (List.length t) <= String.length (String.concat "," (map quote (s :: t))).
Proof.
  revert s; induction t as [|s' t IH]; intros s.
  - change (String.concat "," (map quote [s])) with (quote s).
    pose proof (quote_length s); simpl List.length; lia.
  - change (String.concat "," (map quote (s :: s' :: t)))
      with (quote s ++ "," ++ String.concat "," (map quote (s' :: t)))%string.
    rewrite !length_append; pose proof (quote_length s); pose proof (IH s').
    change (String.length ",") with 1; simpl List.length in *; lia.
Qed.

Lemma concat_quote_head s t Y :
  exists Z, (String.concat "," (map quote (s :: t)) ++ Y)%string = String dq Z.
Proof. destruct t; eexists; reflexivity. Qed.

Lemma parse_value_lbracket f W :
  parse_value (S f) (String "["%char W) =
  match skip_ws W with
  | String c' r' =>
      if Ascii.eqb c' "]"%char then Some (JArr [], r')
      else parse_elements (parse_value f) f [] W
  | EmptyString => None
  end.
Proof. reflexivity. Qed.

Lemma parse_value_array g s t X :
  List.length t < g ->
  parse_value (S g) ("[" ++ String.concat "," (map quote (s :: t)) ++ "]" ++ X)
  = Some (JArr (map JStr (s :: t)), X).
Proof.
  intros Hg; destruct g as [|g]; [lia|].
  pose proof (parse_elements_quoted g t s [] (S g) X ltac:(lia)) as HE.
  destruct (concat_quote_head s t ("]" ++ X)) as [Z HZ].
  change ("[" ++ ?W)%string with (String "["%char W).
  rewrite parse_value_lbracket.
  replace (skip_ws (String.concat "," (map quote (s :: t)) ++ "]" ++ X))
    with (String dq Z) by (rewrite HZ; reflexivity).
  replace (dq =? "]")%char with false by reflexivity.
  exact HE.
Qed.

Lemma JSON_parse_stringify l : JSON_parse (stringify_strings l) = Some (JArr (map JStr l)).
Proof.
  unfold JSON_parse.
  destruct l as [|s t]; [reflexivity|].
  pose proof (concat_quote_length s t) as Hlen.
  unfold stringify_strings.
  rewrite <- (append_empty_r "]").
  rewrite parse_value_array.
  - reflexivity.
  - set (C := String.concat "," (map quote (s :: t))) in *.
    change (String.length ("[" ++ C ++ "]" ++ "")) with (S (String.length (C ++ "]" ++ ""))).
    rewrite length_append; lia.
Qed.

Lemma load_save_recents st l : loadRecents (saveRecents st l) = l.
Proof.
  unfold loadRecents, saveRecents, setItem.
  rewrite String.eqb_refl.
  replace (stringify_strings l) with (String "["%char (String.concat "," (map quote l) ++ "]"))
    by reflexivity.
  change (JSON_parse (String "["%char (String.concat "," (map quote l) ++ "]")))
    with (JSON_parse (stringify_strings l)).
  rewrite JSON_parse_stringify.
  induction l as [|s l IH]; [reflexivity|]; simpl; rewrite IH; reflexivity.
Qed.

(** X5.  Saving a recents list and loading it back gives the same list:
    [JSON.stringify] of a string array is parsed back by [JSON.parse] to an
    array of exactly those strings, whatever characters they contain. *)
Theorem recents_save_load_round_trip :
  forall st l, loadRecents (saveRecents st l) = l.
Proof. exact load_save_recents. Qed.

Lemma NoDup_map_filter {A B} (g : A -> B) (p : A -> bool) l :
  NoDup (map g l) -> NoDup (map g (filter p l)).
Proof.
  induction l as [|x l IH]; simpl; intros H; [constructor|].
  inversion H as [|? ? Hx Hl]; subst.
  destruct (p x); simpl; [constructor|]; auto.
  intros Hin; apply Hx. apply in_map_iff in Hin; destruct Hin as (y & <- & Hy).
  apply filter_In in Hy; apply in_map, Hy.
Qed.

Lemma candidate_labels sep r : map label (candidate_fields sep r) = field_labels.
Proof. reflexivity. Qed.

Lemma field_labels_NoDup : NoDup field_labels.
Proof.
  unfold field_labels.
  repeat (constructor; [simpl; intuition discriminate|]); constructor.
Qed.

(** X6.  When the vPIC response is turned into fields, the response was ok, the
    field list is non-empty with pairwise distinct labels, and it is either
    the single placeholder field or a list of the known fields whose
    values are truthy and non-blank after trimming. *)
Theorem decodeResponse_fields :
  forall sep ok status body fs,
    decodeResponse sep ok status body = inr fs ->
    ok = true /\ fs <> [] /\ NoDup (map label fs) /\
    (fs = [no_fields] \/
     Forall (fun f => In (label f) field_labels /\ truthy (value f) = true /\
                      trim (js_String_opt (value f)) <> EmptyString) fs).
Proof.
  intros sep ok status body fs H.
  unfold decodeResponse in H.
  destruct ok; [|discriminate]; cbv [negb] in H.
  destruct (first_result body) as [rv|] eqn:Er; [|discriminate].
  destruct (truthy (Some rv)); [|discriminate].
  cbv zeta in H.
  remember (filter keep_field (candidate_fields sep rv)) as picked eqn:Ep.
  injection H as <-.
  split; [reflexivity|].
  symmetry in Ep; destruct picked as [|f fs'] eqn:Ef.
  - split; [intros E; discriminate|]; split; [repeat constructor; simpl; tauto|]; left; reflexivity.
  - rewrite <- Ep; split; [rewrite Ep; intros E; discriminate|]; split.
    + apply NoDup_map_filter; rewrite candidate_labels; exact field_labels_NoDup.
    + right; apply Forall_forall; intros x Hx.
      apply filter_In in Hx; destruct Hx as [Hin Hk].
      unfold keep_field in Hk; apply andb_true_iff in Hk; destruct Hk as [Ht Hl].
      split; [rewrite <- (candidate_labels sep rv); apply in_map, Hin|].
      split; [exact Ht|].
      intros He; rewrite He in Hl; discriminate.
Qed.

Lemma decodeResponse_fields_witness :
  exists body fs, decodeResponse " * " true (Number "200") body = inr fs /\
                  NoDup (map label fs) /\ fs <> [no_fields].
Proof.
  pose (b := JObj [("Results", JArr [JObj [("Make", JStr "HONDA"); ("ModelYear", JStr "2003");
                                           ("DisplacementL", JStr "2.4");
                                           ("EngineCylinders", JStr "4");
                                           ("PlantCountry", JNull)]])]).
  assert (H : decodeResponse " * " true (Number "200") b =
              inr (match decodeResponse " * " true (Number "200") b with
                   | inr fs => fs | inl _ => [] end)) by (vm_compute; reflexivity).
  exists b; eexists; split; [exact H|]; split.
  - exact (proj1 (proj2 (proj2 (decodeResponse_fields _ _ _ _ _ H)))).
  - vm_compute; intros Hd; discriminate Hd.
Defined.


(** X8.  An ok response whose first result is truthy but lacks all of the
    13 keys read by the field list yields the single placeholder field. *)
Theorem decodeResponse_placeholder :
  forall sep status body r,
    first_result body = Some r -> truthy (Some r) = true ->
    Forall (fun k => get_prop r k = None) common_keys ->
    decodeResponse sep true status body = inr [no_fields].
Proof.
  intros sep status body r Hr Ht Hk.
  unfold decodeResponse; simpl; rewrite Hr, Ht.
  rewrite Forall_forall in Hk.
  unfold candidate_fields; cbv zeta.
  rewrite (Hk "Make"), (Hk "Model"), (Hk "ModelYear"), (Hk "Trim"), (Hk "BodyClass"),
    (Hk "VehicleType"), (Hk "EngineModel"), (Hk "DisplacementL"), (Hk "EngineCylinders"),
    (Hk "FuelTypePrimary"), (Hk "PlantCity"), (Hk "PlantState"), (Hk "PlantCountry")
    by (simpl; tauto).
  reflexivity.
Qed.

Lemma decodeResponse_placeholder_witness :
  decodeResponse " * " true (Number "200")
    (JObj [("Results", JArr [JObj [("ErrorCode", JStr "0")]])]) = inr [no_fields].
Proof.
  apply (decodeResponse_placeholder " * " (Number "200")
           (JObj [("Results", JArr [JObj [("ErrorCode", JStr "0")]])])
           (JObj [("ErrorCode", JStr "0")])); [reflexivity|reflexivity|].
  repeat constructor.
Defined.


(** X10.  The decode button acts exactly when the normalized input has 17
    characters and none of I, O, Q; it is disabled (when not loading)
    exactly when pressing it would do nothing; the VIN it decodes consists
    of A-Z and 0-9 only. *)
Theorem onDecodePress_guard :
  forall U input v,
    (onDecodePress U input = Some v <->
     v = normalizeVin U input /\ String.length v = 17 /\ has_IOQ v = false) /\
    decode_disabled U false input = negb (is_some (onDecodePress U input)) /\
    (onDecodePress U input = Some v -> all_str is_AZ09 v = true).
Proof.
  intros U input v.
  assert (Hiff : onDecodePress U input = Some v <->
     v = normalizeVin U input /\ String.length v = 17 /\ has_IOQ v = false).
  { unfold onDecodePress, validateVin.
    set (w := normalizeVin U input).
    destruct (String.length w =? 0) eqn:E0, (String.length w =? 17) eqn:E17,
      (has_IOQ w) eqn:Eq; cbn [is_some negb orb andb];
      apply Nat.eqb_eq in E0 || apply Nat.eqb_neq in E0;
      apply Nat.eqb_eq in E17 || apply Nat.eqb_neq in E17;
      (split; [intros H; (discriminate H || (injection H as <-; (lia || (split; [reflexivity|split; assumption]))))
              | intros (-> & H1 & H2); (reflexivity || lia || congruence)]). }
  split; [exact Hiff|]; split.
  - unfold decode_disabled, onDecodePress; simpl.
    destruct (is_some (validateVin (normalizeVin U input))); [reflexivity|].
    destruct (String.length (normalizeVin U input) =? 17); reflexivity.
  - intros H; apply Hiff in H; destruct H as (-> & _ & _); apply all_str_filter.
Qed.

Lemma extract_eq_spec U text : extractVinFromText U text = extract_spec U text.
Proof.
  unfold extractVinFromText, extract_spec; cbv zeta.
  rewrite tokens_of_cleaned.
  change (fun c => (String.length c =? 17) && negb (has_IOQ c)) with vin_ok.
  destruct (find vin_ok (alnum_tokens (U text))); [reflexivity|].
  rewrite scan_windows_first_window by lia.
  rewrite joined_of_cleaned; reflexivity.
Qed.

Lemma split_on_AZ09 u :
  Forall (fun t => all_str is_AZ09 t = true) (split_on (fun c => negb (is_AZ09 c)) u).
Proof.
  induction u as [|c u IH]; [repeat constructor|].
  rewrite split_on_cons.
  destruct (is_AZ09 c) eqn:Ec; simpl negb; cbv iota.
  - destruct (split_on (fun c => negb (is_AZ09 c)) u) as [|h t]; [repeat constructor; simpl; rewrite Ec; reflexivity|].
    inversion IH as [|? ? Hh Ht]; subst; constructor; [simpl; rewrite Ec, Hh; reflexivity|exact Ht].
  - constructor; [reflexivity|exact IH].
Qed.

Lemma alnum_tokens_AZ09 u t : In t (alnum_tokens u) -> all_str is_AZ09 t = true.
Proof.
  unfold alnum_tokens; intros H; apply filter_In in H; destruct H as [H _].
  exact (proj1 (Forall_forall _ _) (split_on_AZ09 u) t H).
Qed.

Lemma concat_AZ09 l :
  (forall t, In t l -> all_str is_AZ09 t = true) -> all_str is_AZ09 (String.concat "" l) = true.
Proof.
  rewrite concat_empty_sep; induction l as [|t l IH]; intros H; [reflexivity|].
  simpl; rewrite all_str_app, (H t (or_introl eq_refl)), IH; [reflexivity|].
  intros x Hx; apply H; right; exact Hx.
Qed.

Lemma substring0_length n s : n <= String.length s -> String.length (substring 0 n s) = n.
Proof.
  revert s; induction n as [|n IH]; intros s H; [destruct s; reflexivity|].
  destruct s as [|c s]; simpl in H; [lia|]; simpl; rewrite IH; [reflexivity|lia].
Qed.

Lemma substring0_all p n s : all_str p s = true -> all_str p (substring 0 n s) = true.
Proof.
  revert s; induction n as [|n IH]; intros s H; [destruct s; reflexivity|].
  destruct s as [|c s]; [reflexivity|]; simpl in *.
  apply andb_true_iff in H; destruct H as [H1 H2]; rewrite H1, IH; auto.
Qed.

Lemma first_window_props s w :
  first_window s = Some w ->
  String.length w = 17 /\ has_IOQ w = false /\
  (forall p, all_str p s = true -> all_str p w = true).
Proof.
  induction s as [|c s IH]; intros H; [discriminate H|].
  rewrite first_window_cons in H.
  destruct (17 <=? String.length (String c s)) eqn:E; [|discriminate H].
  apply Nat.leb_le in E.
  destruct (has_IOQ (substring 0 17 (String c s))) eqn:Hq; cbv [negb] in H.
  - destruct (IH H) as (H1 & H2 & H3); split; [exact H1|]; split; [exact H2|].
    intros p Hp; apply H3; simpl in Hp; apply andb_true_iff in Hp; apply Hp.
  - assert (Hw : w = substring 0 17 (String c s)) by congruence.
    rewrite Hw; split; [apply substring0_length, E|]; split; [exact Hq|].
    intros p Hp; apply substring0_all, Hp.
Qed.

Lemma extract_shape U text v :
  extractVinFromText U text = Some v ->
  String.length v = 17 /\ has_IOQ v = false /\ all_str is_AZ09 v = true.
Proof.
  rewrite extract_eq_spec; unfold extract_spec.
  destruct (find vin_ok (alnum_tokens (U text))) as [t|] eqn:Ef.
  - intros H; injection H as <-.
    apply find_some in Ef; destruct Ef as [Hin Hok].
    unfold vin_ok in Hok; apply andb_true_iff in Hok; destruct Hok as [H1 H2].
    apply Nat.eqb_eq in H1; apply negb_true_iff in H2.
    split; [exact H1|]; split; [exact H2|]; apply (alnum_tokens_AZ09 _ _ Hin).
  - intros H; destruct (first_window_props _ _ H) as (H1 & H2 & H3).
    split; [exact H1|]; split; [exact H2|].
    apply H3, concat_AZ09; intros t Ht; apply (alnum_tokens_AZ09 _ _ Ht).
Qed.

(** X11.  A VIN found by [extractVinFromText] has 17 characters, none of
    I, O, Q, only A-Z and 0-9, and passes [validateVin]. *)
Theorem extractVin_result_valid :
  forall U text v,
    extractVinFromText U text = Some v ->
    String.length v = 17 /\ has_IOQ v = false /\ all_str is_AZ09 v = true /\
    validateVin v = None.
Proof.
  intros U text v H; destruct (extract_shape _ _ _ H) as (H1 & H2 & H3).
  split; [exact H1|]; split; [exact H2|]; split; [exact H3|].
  unfold validateVin; rewrite H1, H2; reflexivity.
Qed.

Lemma extractVin_result_valid_witness :
  extractVinFromText ascii_toUpperCase "VIN: 1hgcm82633a004352" = Some "1HGCM82633A004352" /\
  validateVin "1HGCM82633A004352" = None.
Proof.
  assert (H : extractVinFromText ascii_toUpperCase "VIN: 1hgcm82633a004352"
              = Some "1HGCM82633A004352") by (vm_compute; reflexivity).
  split; [exact H|].
  exact (proj2 (proj2 (proj2 (extractVin_result_valid _ _ _ H)))).
Defined.

(** X12.  A VIN found in scanned text and put into the input field is left
    unchanged by [normalizeVin], passes [validateVin], and makes the decode
    button decode exactly that VIN (for an upper-casing that leaves A-Z0-9
    strings unchanged). *)
Theorem scanned_vin_decodable :
  forall U : string -> string,
    (forall s, all_str is_AZ09 s = true -> U s = s) ->
    forall text v,
      extractVinFromText U text = Some v ->
      normalizeVin U v = v /\ validateVin v = None /\ onDecodePress U v = Some v.
Proof.
  intros U HU text v H.
  destruct (extract_shape _ _ _ H) as (H1 & H2 & H3).
  assert (Hn : normalizeVin U v = v).
  { unfold normalizeVin; rewrite trim_AZ09, HU, str_filter_all by exact H3; reflexivity. }
  assert (Hv : validateVin v = None) by (unfold validateVin; rewrite H1, H2; reflexivity).
  split; [exact Hn|]; split; [exact Hv|].
  unfold onDecodePress; rewrite Hn, Hv, H1; reflexivity.
Qed.

Lemma scanned_vin_decodable_witness :
  onDecodePress ascii_toUpperCase "1HGCM82633A004352" = Some "1HGCM82633A004352".
Proof.
  apply (scanned_vin_decodable ascii_toUpperCase upper_AZ09 "VIN: 1hgcm82633a004352").
  vm_compute; reflexivity.
Defined.

Lemma includes_app_last c d : includes c (d ++ String c EmptyString) = true.
Proof.
  induction d as [|x d IH]; simpl; [rewrite Ascii.eqb_refl; reflexivity|].
  rewrite IH, orb_true_r; reflexivity.
Qed.

(** X14.  Pressing the decimal point twice has the effect of pressing it once. *)
Theorem dot_twice :
  forall s, reducer (reducer s DOT) DOT = reducer s DOT.
Proof.
  intros [d a o e j]; unfold reducer; cbv beta iota zeta delta [display acc op entering justEvaluated].
  destruct (negb e || (j && negb (is_some o) && negb (is_some a))) eqn:F.
  - reflexivity.
  - destruct (includes "."%char d) eqn:I.
    + cbv beta iota delta [display acc op entering justEvaluated]; rewrite ?F, ?I; reflexivity.
    + apply orb_false_iff in F; destruct F as [F1 F2]; apply negb_false_iff in F1; subst e.
      simpl; rewrite includes_app_last; reflexivity.
Qed.

(** X15.  After Equals or an operator, a digit starts a new entry showing just
    that digit (keeping accumulator and operator), and a point starts the
    entry 0. *)
Theorem entry_restarts_after_result :
  forall s d o,
    reducer (reducer s EQUALS) (DIGIT d) =
      {| display := d; acc := acc (reducer s EQUALS); op := op (reducer s EQUALS);
         entering := true; justEvaluated := false |} /\
    reducer (reducer s (OP o)) (DIGIT d) =
      {| display := d; acc := acc (reducer s (OP o)); op := Some o;
         entering := true; justEvaluated := false |} /\
    display (reducer (reducer s EQUALS) DOT) = "0." /\
    display (reducer (reducer s (OP o)) DOT) = "0.".
Proof.
  intros [dd a op' e j] d o; unfold reducer; cbv beta iota zeta delta [display acc op entering justEvaluated].
  destruct op', a, e; repeat split; reflexivity.
Qed.

(** X16.  Pressing two operators in a row is the same as pressing only the
    second: the first one is replaced, not evaluated. *)
Theorem operator_replaces_pending :
  forall s o1 o2, reducer (reducer s (OP o1)) (OP o2) = reducer s (OP o2).
Proof.
  intros [d a op' e j] o1 o2; unfold reducer; cbv beta iota zeta delta [display acc op entering justEvaluated].
  destruct op', a, e; reflexivity.
Qed.

Lemma reach_evaluated_not_entering s :
  reachable s -> justEvaluated s && entering s = false.
Proof.
  induction 1 as [|s k Hs IH]; [reflexivity|].
  destruct s as [d a o e j]; cbn [justEvaluated entering] in IH.
  destruct k; unfold onKeyPress, reducer;
    cbv beta iota zeta delta [display acc op entering justEvaluated];
    try reflexivity;
    repeat match goal with
    | |- context [match ?x with Some _ => _ | None => _ end] => destruct x
    | |- context [if ?b then _ else _] =>
        match type of b with bool => destruct b eqn:? end
    end;
    first [reflexivity | exact IH].
Qed.

(** X17.  In every reachable state, a state just evaluated is never in the
    middle of entering a number. *)
Theorem reachable_evaluated_not_entering :
  forall s, reachable s -> justEvaluated s = true -> entering s = false.
Proof.
  intros s Hs Hj; pose proof (reach_evaluated_not_entering s Hs) as H.
  rewrite Hj in H; exact H.
Qed.

Lemma reachable_evaluated_not_entering_witness :
  justEvaluated (run [K_D3; K_ADD; K_D4; K_EQ]) = true /\
  entering (run [K_D3; K_ADD; K_D4; K_EQ]) = false.
Proof.
  assert (H : justEvaluated (run [K_D3; K_ADD; K_D4; K_EQ]) = true) by (vm_compute; reflexivity).
  split; [exact H|].
  exact (reachable_evaluated_not_entering _ (reachable_run _) H).
Defined.

Lemma drop_while_app p a b :
  drop_while p (a ++ b) =
  match drop_while p a with EmptyString => drop_while p b | r => (r ++ b)%string end.
Proof.
  induction a as [|c a IH]; [reflexivity|]; simpl.
  destruct (p c); [exact IH|reflexivity].
Qed.

Lemma drop_while_head p s x r : drop_while p s = String x r -> p x = false.
Proof.
  induction s as [|c s IH]; simpl; [discriminate|].
  destruct (p c) eqn:E; [exact IH|intros H; injection H as <- _; exact E].
Qed.

Lemma typed_number_snoc t c :
  typed_number (t ++ String c EmptyString) =
  if String.eqb (typed_number t) "0" then String c EmptyString
  else (typed_number t ++ String c EmptyString)%string.
Proof.
  unfold typed_number; rewrite drop_while_app.
  destruct (drop_while (fun c => Ascii.eqb c "0"%char) t) as [|x r] eqn:E.
  - simpl; destruct (Ascii.eqb c "0"%char) eqn:Ec; [|reflexivity].
    apply Ascii.eqb_eq in Ec; subst c; reflexivity.
  - apply drop_while_head in E.
    destruct (String.eqb (String x r) "0") eqn:Ez.
    + apply String.eqb_eq in Ez; injection Ez as -> _; discriminate E.
    + reflexivity.
Qed.

Lemma fold_append_snoc l x :
  fold_right String.append EmptyString (l ++ [x]) =
  (fold_right String.append EmptyString l ++ x)%string.
Proof.
  induction l as [|y l IH]; simpl; [apply append_empty_r|].
  rewrite IH; apply append_assoc.
Qed.

(** X18.  Typing only digits from the initial state shows the typed digits
    with their leading zeros dropped (0 if all are zeros), keeps entering,
    and sets no accumulator or operator. *)
Theorem digits_from_start :
  forall ks,
    Forall (fun k => In k digit_keys) ks ->
    run ks = {| display := typed_number (String.concat "" (map key_digit ks));
                acc := None; op := None; entering := true; justEvaluated := false |}.
Proof.
  induction ks as [|k ks IH] using rev_ind; intros H; [reflexivity|].
  apply Forall_app in H; destruct H as [H1 H2].
  inversion H2 as [|? ? Hk _]; subst.
  unfold run, press_all in *; rewrite fold_left_app, IH by exact H1; simpl fold_left.
  rewrite map_app; change (map key_digit [k]) with [key_digit k].
  rewrite (concat_empty_sep (map key_digit ks ++ [key_digit k])), fold_append_snoc,
    <- concat_empty_sep.
  set (t := String.concat "" (map key_digit ks)).
  destruct k; try (exfalso; simpl in Hk; intuition discriminate);
    cbn [onKeyPress key_digit map fold_right String.append];
    rewrite typed_number_snoc;
    unfold reducer; cbv beta iota zeta delta [display acc op entering justEvaluated];
    simpl negb; simpl orb;
    destruct (String.eqb (typed_number t) "0"); reflexivity.
Qed.

Lemma digits_from_start_witness :
  display (run [K_D0; K_D0; K_D4; K_D0]) = "40".
Proof.
  assert (H : Forall (fun k => In k digit_keys) [K_D0; K_D0; K_D4; K_D0])
    by (repeat constructor; simpl; tauto).
  rewrite (digits_from_start _ H); reflexivity.
Defined.

Lemma applyOp_NaN b p : applyOp NaN b p = NaN.
Proof. destruct p, b; reflexivity. Qed.

(** X19.  A NaN accumulator with a pending operator shows Error on Equals and
    clears the accumulator; on an operator while entering, it shows Error
    and keeps NaN in the accumulator. *)
Theorem error_propagates :
  forall s p,
    acc s = Some NaN -> op s = Some p ->
    display (reducer s EQUALS) = "Error" /\ acc (reducer s EQUALS) = None /\
    (entering s = true ->
     forall o, display (reducer s (OP o)) = "Error" /\ acc (reducer s (OP o)) = Some NaN).
Proof.
  intros [d a o e j] p Ha Ho; cbn [acc op entering] in *; subst a o.
  unfold reducer; cbv beta iota zeta delta [display acc op entering justEvaluated].
  rewrite applyOp_NaN; split; [reflexivity|]; split; [reflexivity|].
  intros -> o; split; reflexivity.
Qed.

Lemma error_propagates_witness :
  acc (run [K_D5; K_DIV; K_D0; K_ADD; K_D3]) = Some NaN /\
  op (run [K_D5; K_DIV; K_D0; K_ADD; K_D3]) = Some OpAdd /\
  display (reducer (run [K_D5; K_DIV; K_D0; K_ADD; K_D3]) EQUALS) = "Error".
Proof.
  assert (Ha : acc (run [K_D5; K_DIV; K_D0; K_ADD; K_D3]) = Some NaN) by (vm_compute; reflexivity).
  assert (Ho : op (run [K_D5; K_DIV; K_D0; K_ADD; K_D3]) = Some OpAdd) by (vm_compute; reflexivity).
  split; [exact Ha|]; split; [exact Ho|].
  exact (proj1 (error_propagates _ _ Ha Ho)).
Defined.

(** X13.  The OCR text handed to [extractVinFromText]: an object result
    becomes the text [object Object] in which no VIN is found; an array
    with a null block makes the handler fail (reading [.text] of null); an
    array of blocks with string [text] gives the texts joined by newlines. *)
Theorem ocr_text_cases :
  (forall members,
     ocr_text (Some (JObj members)) = Some "[object Object]" /\
     extractVinFromText ascii_toUpperCase "[object Object]" = None) /\
  (forall blocks, In JNull blocks -> ocr_text (Some (JArr blocks)) = None) /\
  (forall texts : list string,
     ocr_text (Some (JArr (map (fun t => JObj [("text", JStr t)]) texts)))
     = Some (String.concat (String "010" EmptyString) texts)).
Proof.
  split; [intros m; split; [reflexivity|vm_compute; reflexivity]|].
  split.
  - intros blocks H; unfold ocr_text.
    replace (forallb _ _) with false; [reflexivity|].
    symmetry; apply not_true_iff_false; intros Hf.
    rewrite forallb_forall in Hf.
    assert (Hn : In None (map (fun b => match b with
                                 | JNull => None
                                 | _ => Some (js_coalesce (get_prop b "text") (Some (JStr EmptyString)))
                                 end) blocks))
      by (apply (in_map_iff _ _ None); exists JNull; split; [reflexivity|exact H]).
    specialize (Hf _ Hn); discriminate Hf.
  - intros texts; unfold ocr_text.
    rewrite map_map.
    replace (forallb _ _) with true.
    + unfold js_join; rewrite !map_map.
      do 2 f_equal; induction texts as [|t texts IH]; [reflexivity|]; cbn [map]; rewrite IH; reflexivity.
    + symmetry; apply forallb_forall; intros x Hx; apply in_map_iff in Hx.
      destruct Hx as (t & <- & _); reflexivity.
Qed.

Lemma num_char_uint d : all_str num_char (NilEmpty.string_of_uint d) = true.
Proof. induction d; simpl; rewrite ?IHd; reflexivity. Qed.

Lemma num_char_Z_to_dec z : all_str num_char (Z_to_dec z) = true.
Proof.
  unfold Z_to_dec, NilZero.string_of_uint.
  destruct (N.to_uint (Z.to_N z)); try reflexivity; apply num_char_uint.
Qed.

Lemma all_str_substring p n m s :
  all_str p s = true -> all_str p (substring n m s) = true.
Proof.
  revert n m; induction s as [|c s IH]; intros n m H.
  - destruct n, m; reflexivity.
  - simpl in H; apply andb_true_iff in H; destruct H as [H1 H2].
    destruct n as [|n].
    + destruct m as [|m]; [reflexivity|]; simpl; rewrite H1; apply (IH 0 m H2).
    + apply IH, H2.
Qed.

Lemma all_str_repeat p c n : p c = true -> all_str p (repeat_char c n) = true.
Proof. intros H; induction n as [|n IH]; simpl; [reflexivity|]; rewrite H, IH; reflexivity. Qed.

Ltac num_chars :=
  repeat first
    [ rewrite all_str_app
    | rewrite num_char_Z_to_dec
    | rewrite all_str_repeat by reflexivity
    | rewrite all_str_substring by apply num_char_Z_to_dec
    | rewrite all_str_substring
        by (rewrite all_str_app, all_str_repeat, num_char_Z_to_dec by reflexivity; reflexivity) ];
  try reflexivity.

Lemma num_char_layout s k n : all_str num_char (layout s k n) = true.
Proof.
  unfold layout; cbv zeta.
  repeat match goal with |- context [if ?b then _ else _] => destruct b end;
    num_chars.
Qed.

Lemma num_char_toString x : isFinite x = true -> all_str num_char (Number_toString x) = true.
Proof.
  destruct x as [sg| [] | |sg m e]; intros H; try discriminate H; try reflexivity.
  unfold Number_toString.
  destruct (shortest _ _ _ _ _) as [[s k] n].
  destruct sg; num_chars; apply num_char_layout.
Qed.

Lemma num_char_toFixed f x : isFinite x = true -> all_str num_char (toFixed f x) = true.
Proof.
  intros H; unfold toFixed; rewrite H; cbv [negb].
  destruct x as [sg| [] | |sg m e]; try discriminate H.
  - cbv beta iota zeta.
    destruct (Qle_bool _ _); [reflexivity|].
    destruct (_ <=? f); num_chars.
  - destruct sg; cbv beta iota zeta.
    all: destruct (Qle_bool _ _); [num_chars; apply num_char_toString; reflexivity|].
    all: destruct (_ <=? f); num_chars.
Qed.

Lemma all_str_strip p s : all_str p s = true -> all_str p (strip_trailing_zeros s) = true.
Proof.
  induction s as [|c s IH]; intros H; [reflexivity|].
  simpl in H; apply andb_true_iff in H; destruct H as [H1 H2].
  change (strip_trailing_zeros (String c s))
    with (if dot_zeros (String c s) then EmptyString else String c (strip_trailing_zeros s)).
  destruct (dot_zeros (String c s)); [reflexivity|].
  simpl; rewrite H1, IH by exact H2; reflexivity.
Qed.

(** X20.  [formatNumber] shows Error exactly for a non-finite number; for
    a finite number it shows only digits and the characters . - + e. *)
Theorem formatNumber_Error_iff :
  forall n,
    (formatNumber n = "Error" <-> isFinite n = false) /\
    (isFinite n = true -> all_str num_char (formatNumber n) = true).
Proof.
  intros n.
  assert (Hc : isFinite n = true -> all_str num_char (formatNumber n) = true).
  { intros H; unfold formatNumber; rewrite H; cbv [negb].
    set (n' := if is_neg_zero n then pos_zero else n).
    assert (Hf : isFinite n' = true) by (unfold n'; destruct (is_neg_zero n); [reflexivity|exact H]).
    destruct (includes "e"%char _); [apply num_char_toString, Hf|].
    destruct (includes "."%char _); [|apply num_char_toString, Hf].
    apply all_str_strip, num_char_toFixed, Hf. }
  split; [|exact Hc].
  split.
  - intros He; destruct (isFinite n) eqn:Hf; [|reflexivity].
    specialize (Hc eq_refl); rewrite He in Hc; discriminate Hc.
  - intros Hf; unfold formatNumber; rewrite Hf; reflexivity.
Qed.

Lemma formatNumber_Error_iff_witness :
  isFinite (Number "0.1") = true /\ all_str num_char (formatNumber (Number "0.1")) = true.
Proof.
  assert (H : isFinite (Number "0.1") = true) by (vm_compute; reflexivity).
  split; [exact H|]. exact (proj2 (formatNumber_Error_iff _) H).
Defined.
